(** * The LearnOpenGL camera of surround_view_monitor

    A shallow embedding of [src/include/learnopengl/camera.h], twice.  In
    the first the C++ [float]s are read as real numbers: every arithmetic
    operation is exact, there is no rounding, no infinity and no NaN; the
    geometry of the camera is proved there.  In the second, module [Ieee],
    a float is a real number, an infinity or NaN, with the rules of IEEE 754
    for the last three; what the clamps of the pitch and of the zoom do for
    every value a [float] can take is proved there.  A member function of
    [class Camera] mutates [*this]; here it is a function from the object
    before the call to the object after it, and each assignment of the body
    is one [let] that rebinds the object. *)

From Stdlib Require Import Reals Lra Psatz List Bool.
Import ListNotations.

Set Implicit Arguments.
Open Scope R_scope.

(** ** Comparisons of the source, as booleans *)

Definition Rltb (a b : R) : bool := if Rlt_dec a b then true else false.
Definition Rleb (a b : R) : bool := if Rle_dec a b then true else false.
Definition Rgtb (a b : R) : bool := Rltb b a.
Definition Rgeb (a b : R) : bool := Rleb b a.

Infix "<?" := Rltb (at level 70, no associativity) : R_scope.
Infix "<=?" := Rleb (at level 70, no associativity) : R_scope.
Infix ">?" := Rgtb (at level 70, no associativity) : R_scope.
Infix ">=?" := Rgeb (at level 70, no associativity) : R_scope.

(** ** The part of GLM the camera uses *)

Module glm.

Record vec3 : Type := mk_vec3 { x : R; y : R; z : R }.

Definition zero : vec3 := mk_vec3 0 0 0.

(** [a + b], [a - b] and [v * s] of [glm::vec3], componentwise. *)
Definition add (a b : vec3) : vec3 :=
  mk_vec3 (x a + x b) (y a + y b) (z a + z b).
Definition sub (a b : vec3) : vec3 :=
  mk_vec3 (x a - x b) (y a - y b) (z a - z b).
Definition scale (v : vec3) (s : R) : vec3 :=
  mk_vec3 (x v * s) (y v * s) (z v * s).

Definition dot (a b : vec3) : R := x a * x b + y a * y b + z a * z b.

Definition length (v : vec3) : R := sqrt (dot v v).

(** Modelled from the spec: [glm::cross] belongs to the GLM library, which
    is not among the sources; it is the right-handed cross product, with
    GLM's order of the operands in each component. *)
Definition cross (a b : vec3) : vec3 :=
  mk_vec3 (y a * z b - y b * z a)
          (z a * x b - z b * x a)
          (x a * y b - x b * y a).

(** Modelled from the spec: [glm::normalize] belongs to the GLM library,
    which is not among the sources; GLM computes
    [v * inversesqrt(dot(v, v))].  At the zero vector GLM divides by zero;
    the total division of the reals gives the zero vector there, and no
    statement below uses the value of [normalize] at the zero vector. *)
Definition normalize (v : vec3) : vec3 := scale v (1 / sqrt (dot v v)).

(** Modelled from the spec: [glm::radians] belongs to the GLM library,
    which is not among the sources; it converts degrees to radians. *)
Definition radians (degrees : R) : R := degrees * (PI / 180).

End glm.

Abbreviation vec3 := glm.vec3.

(** ** Constants of the header *)

Module Macro.
(** [#define PI 3.14159] *)
Definition PI : R := 3.14159.
End Macro.

Inductive Camera_Movement : Type := FORWARD | BACKWARD | LEFT | RIGHT.

Definition Camera_Movement_eqb (a b : Camera_Movement) : bool :=
  match a, b with
  | FORWARD, FORWARD | BACKWARD, BACKWARD | LEFT, LEFT | RIGHT, RIGHT => true
  | _, _ => false
  end.

Definition YAW : R := -90.
Definition PITCH : R := 0.
Definition SPEED : R := 2.5.
Definition SENSITIVITY : R := 0.1.
Definition ZOOM : R := 45.

(** ** The data members of [class Camera] *)

Record Camera : Type := mkCamera {
  Position : vec3;
  Front : vec3;
  Up : vec3;
  Right : vec3;
  WorldUp : vec3;
  Yaw : R;
  Pitch : R;
  MovementSpeed : R;
  MouseSensitivity : R;
  Zoom : R
}.

(** Assignment to one member. *)

Definition set_Position (v : vec3) (c : Camera) : Camera :=
  mkCamera v (Front c) (Up c) (Right c) (WorldUp c) (Yaw c) (Pitch c)
           (MovementSpeed c) (MouseSensitivity c) (Zoom c).
Definition set_Front (v : vec3) (c : Camera) : Camera :=
  mkCamera (Position c) v (Up c) (Right c) (WorldUp c) (Yaw c) (Pitch c)
           (MovementSpeed c) (MouseSensitivity c) (Zoom c).
Definition set_Up (v : vec3) (c : Camera) : Camera :=
  mkCamera (Position c) (Front c) v (Right c) (WorldUp c) (Yaw c) (Pitch c)
           (MovementSpeed c) (MouseSensitivity c) (Zoom c).
Definition set_Right (v : vec3) (c : Camera) : Camera :=
  mkCamera (Position c) (Front c) (Up c) v (WorldUp c) (Yaw c) (Pitch c)
           (MovementSpeed c) (MouseSensitivity c) (Zoom c).
Definition set_WorldUp (v : vec3) (c : Camera) : Camera :=
  mkCamera (Position c) (Front c) (Up c) (Right c) v (Yaw c) (Pitch c)
           (MovementSpeed c) (MouseSensitivity c) (Zoom c).
Definition set_Yaw (r : R) (c : Camera) : Camera :=
  mkCamera (Position c) (Front c) (Up c) (Right c) (WorldUp c) r (Pitch c)
           (MovementSpeed c) (MouseSensitivity c) (Zoom c).
Definition set_Pitch (r : R) (c : Camera) : Camera :=
  mkCamera (Position c) (Front c) (Up c) (Right c) (WorldUp c) (Yaw c) r
           (MovementSpeed c) (MouseSensitivity c) (Zoom c).
Definition set_Zoom (r : R) (c : Camera) : Camera :=
  mkCamera (Position c) (Front c) (Up c) (Right c) (WorldUp c) (Yaw c)
           (Pitch c) (MovementSpeed c) (MouseSensitivity c) r.

(** ** Private member functions *)

(** The vector [front] that [updateCameraVectors] builds from the two Euler
    angles before it normalises it. *)
Definition front_of (yaw pitch : R) : vec3 :=
  glm.mk_vec3 (cos (glm.radians yaw) * cos (glm.radians pitch))
              (sin (glm.radians pitch))
              (sin (glm.radians yaw) * cos (glm.radians pitch)).

(** [void updateCameraVectors()]: three assignments, each reading the
    members written by the ones before it. *)
Definition updateCameraVectors (c : Camera) : Camera :=
  let front := front_of (Yaw c) (Pitch c) in
  let c := set_Front (glm.normalize front) c in
  let c := set_Right (glm.normalize (glm.cross (Front c) (WorldUp c))) c in
  let c := set_Up (glm.normalize (glm.cross (Right c) (Front c))) c in
  c.

(** [float distance_from_camera_to_target(camera_position, target_position)] *)
Definition distance_from_camera_to_target
    (camera_position target_position : vec3) : R :=
  let distance_x := glm.x camera_position - glm.x target_position in
  let distance_y := glm.y camera_position - glm.y target_position in
  let distance_z := glm.z camera_position - glm.z target_position in
  sqrt (distance_x * distance_x + distance_y * distance_y
        + distance_z * distance_z).

(** [float degree_to_radian(float degree)], with the header's own [PI]. *)
Definition degree_to_radian (degree : R) : R := degree / 180 * Macro.PI.

(** ** Constructors *)

(** The object as the member initialiser list leaves it: [Front],
    [MovementSpeed], [MouseSensitivity] and [Zoom] are initialised, the other
    vectors are default-constructed and the two angles are not yet set (they
    are taken as 0 here); the constructor body assigns all of them but [Up]
    and [Right], which [updateCameraVectors] assigns. *)
Definition Camera_initialised : Camera :=
  mkCamera glm.zero (glm.mk_vec3 0 0 (-1)) glm.zero glm.zero glm.zero 0 0
           SPEED SENSITIVITY ZOOM.

(** [Camera(glm::vec3 position, glm::vec3 up, float yaw, float pitch)] *)
Definition Camera_new (position up : vec3) (yaw pitch : R) : Camera :=
  let c := Camera_initialised in
  let c := set_Position position c in
  let c := set_WorldUp up c in
  let c := set_Yaw yaw c in
  let c := set_Pitch pitch c in
  updateCameraVectors c.

(** [Camera(posX, posY, posZ, upX, upY, upZ, yaw, pitch)] *)
Definition Camera_new_scalars (posX posY posZ upX upY upZ yaw pitch : R)
    : Camera :=
  let c := Camera_initialised in
  let c := set_Position (glm.mk_vec3 posX posY posZ) c in
  let c := set_WorldUp (glm.mk_vec3 upX upY upZ) c in
  let c := set_Yaw yaw c in
  let c := set_Pitch pitch c in
  updateCameraVectors c.

(** The camera all of whose constructor arguments are defaulted. *)
Definition Camera_default : Camera :=
  Camera_new (glm.mk_vec3 0 0 0) (glm.mk_vec3 0 1 0) YAW PITCH.

(** ** Public member functions *)

(** [void ProcessKeyboard(Camera_Movement direction, float deltaTime)]:
    four independent [if]s. *)
Definition ProcessKeyboard (direction : Camera_Movement) (deltaTime : R)
    (c : Camera) : Camera :=
  let velocity := MovementSpeed c * deltaTime in
  let c := if Camera_Movement_eqb direction FORWARD
           then set_Position (glm.add (Position c) (glm.scale (Front c) velocity)) c
           else c in
  let c := if Camera_Movement_eqb direction BACKWARD
           then set_Position (glm.sub (Position c) (glm.scale (Front c) velocity)) c
           else c in
  let c := if Camera_Movement_eqb direction LEFT
           then set_Position (glm.sub (Position c) (glm.scale (Right c) velocity)) c
           else c in
  let c := if Camera_Movement_eqb direction RIGHT
           then set_Position (glm.add (Position c) (glm.scale (Right c) velocity)) c
           else c in
  c.

(** [void ProcessMouseMovement(float xoffset, float yoffset,
                               GLboolean constrainPitch = true)] *)
Definition ProcessMouseMovement (xoffset yoffset : R) (constrainPitch : bool)
    (c : Camera) : Camera :=
  let xoffset := xoffset * MouseSensitivity c in
  let yoffset := yoffset * MouseSensitivity c in
  let c := set_Yaw (Yaw c + xoffset) c in
  let c := set_Pitch (Pitch c + yoffset) c in
  let c := if constrainPitch then
             let c := if Pitch c >? 89 then set_Pitch 89 c else c in
             let c := if Pitch c <? -89 then set_Pitch (-89) c else c in
             c
           else c in
  updateCameraVectors c.

(** [void move_camera_in_sphere(float xoffset, float yoffset,
                                glm::vec3 target_position)] *)
Definition move_camera_in_sphere (xoffset yoffset : R) (target_position : vec3)
    (c : Camera) : Camera :=
  let xoffset := xoffset * (MouseSensitivity c * 0.1) in
  let yoffset := yoffset * (MouseSensitivity c * 0.1) in
  let c := set_Yaw (Yaw c - xoffset) c in
  let c := set_Pitch (Pitch c - yoffset) c in
  let alpha := degree_to_radian (Yaw c) in
  let beta := degree_to_radian (Pitch c) in
  let distance := distance_from_camera_to_target (Position c) target_position in
  let c := set_Position
             (glm.mk_vec3
                (glm.x target_position - distance * cos alpha * cos beta)
                (glm.y (Position c)) (glm.z (Position c))) c in
  let c := set_Position
             (glm.mk_vec3
                (glm.x (Position c))
                (glm.y target_position - distance * sin beta)
                (glm.z (Position c))) c in
  let c := set_Position
             (glm.mk_vec3
                (glm.x (Position c)) (glm.y (Position c))
                (glm.z target_position - distance * sin alpha * cos beta)) c in
  updateCameraVectors c.

(** [void move_camera_in_ellipsoid(float xoffset, float yoffset,
                                   glm::vec3 target_position)]; its comment
    announces an ellipsoid of axes 3 : 2 : 2 (x : z : y), with [distance]
    the width. *)
Definition move_camera_in_ellipsoid (xoffset yoffset : R)
    (target_position : vec3) (c : Camera) : Camera :=
  let xoffset := xoffset * (MouseSensitivity c * 0.1) in
  let yoffset := yoffset * (MouseSensitivity c * 0.1) in
  let c := set_Yaw (Yaw c - xoffset) c in
  let c := set_Pitch (Pitch c - yoffset) c in
  let alpha := degree_to_radian (Yaw c) in
  let beta := degree_to_radian (Pitch c) in
  let distance := distance_from_camera_to_target (Position c) target_position in
  let c := set_Position
             (glm.mk_vec3
                (glm.x target_position - distance * cos alpha * cos beta)
                (glm.y (Position c)) (glm.z (Position c))) c in
  let c := set_Position
             (glm.mk_vec3
                (glm.x (Position c))
                (glm.y target_position - distance * sin beta)
                (glm.z (Position c))) c in
  let c := set_Position
             (glm.mk_vec3
                (glm.x (Position c)) (glm.y (Position c))
                (glm.z target_position - distance * sin alpha * cos beta)) c in
  updateCameraVectors c.

(** [void ProcessMouseScroll(float yoffset)] *)
Definition ProcessMouseScroll (yoffset : R) (c : Camera) : Camera :=
  let c := if (Zoom c >=? 1) && (Zoom c <=? 45)
           then set_Zoom (Zoom c - yoffset) c else c in
  let c := if Zoom c <=? 1 then set_Zoom 1 c else c in
  let c := if Zoom c >=? 45 then set_Zoom 45 c else c in
  c.

(** ** Sequences of calls *)

(** The objects observed after each call of a sequence of calls of one
    operation [f], one argument per call, first call first. *)
Fixpoint states_after (A : Type) (f : A -> Camera -> Camera)
    (inputs : list A) (c : Camera) : list Camera :=
  match inputs with
  | [] => []
  | a :: rest => let c' := f a c in c' :: states_after f rest c'
  end.

(** A constrained mouse-look call, from the pair of its offsets. *)
Definition constrained_look (offsets : R * R) (c : Camera) : Camera :=
  ProcessMouseMovement (fst offsets) (snd offsets) true c.

(** The calls of the public interface that change the object. *)
Inductive Call : Type :=
| CallKeyboard (direction : Camera_Movement) (deltaTime : R)
| CallMouseMovement (xoffset yoffset : R) (constrainPitch : bool)
| CallSphere (xoffset yoffset : R) (target_position : vec3)
| CallEllipsoid (xoffset yoffset : R) (target_position : vec3)
| CallMouseScroll (yoffset : R).

Definition perform (k : Call) (c : Camera) : Camera :=
  match k with
  | CallKeyboard direction deltaTime => ProcessKeyboard direction deltaTime c
  | CallMouseMovement xoffset yoffset constrainPitch =>
      ProcessMouseMovement xoffset yoffset constrainPitch c
  | CallSphere xoffset yoffset target => move_camera_in_sphere xoffset yoffset target c
  | CallEllipsoid xoffset yoffset target =>
      move_camera_in_ellipsoid xoffset yoffset target c
  | CallMouseScroll yoffset => ProcessMouseScroll yoffset c
  end.

(** Whether the body of the operation ends with [updateCameraVectors()]. *)
Definition recomputes_basis (k : Call) : bool :=
  match k with
  | CallKeyboard _ _ | CallMouseScroll _ => false
  | CallMouseMovement _ _ _ | CallSphere _ _ _ | CallEllipsoid _ _ _ => true
  end.

(** The objects a client can observe immediately after a constructor or a
    mutating operation returns.  A constructor and an operation that
    recomputes the basis are taken from any object whatever (the members are
    public, a client may have written them before the call); an operation
    that leaves the basis alone is taken from an object that was itself
    observed after a call. *)
Inductive after_call : Camera -> Prop :=
| after_new (position up : vec3) (yaw pitch : R) :
    after_call (Camera_new position up yaw pitch)
| after_new_scalars (posX posY posZ upX upY upZ yaw pitch : R) :
    after_call (Camera_new_scalars posX posY posZ upX upY upZ yaw pitch)
| after_recomputing (k : Call) (c : Camera) :
    recomputes_basis k = true -> after_call (perform k c)
| after_other (k : Call) (c : Camera) :
    recomputes_basis k = false -> after_call c -> after_call (perform k c).

(** ** Properties of vectors and ranges *)

Definition unit_length (v : vec3) : Prop := glm.length v = 1.

Definition perpendicular (a b : vec3) : Prop := glm.dot a b = 0.

(** Two vectors are parallel when their cross product vanishes; the zero
    vector is parallel to every vector. *)
Definition parallel (a b : vec3) : Prop := glm.cross a b = glm.zero.

Record orthonormal (front right up : vec3) : Prop := mk_orthonormal {
  front_unit : unit_length front;
  right_unit : unit_length right;
  up_unit : unit_length up;
  front_right : perpendicular front right;
  front_up : perpendicular front up;
  right_up : perpendicular right up
}.

Definition pitch_in_range (c : Camera) : Prop := -89 <= Pitch c <= 89.

Definition zoom_in_range (c : Camera) : Prop := 1 <= Zoom c <= 45.

(** Straightforward clamping of [v] to the interval from [lo] to [hi], the
    operation the specification describes for the pitch and for the zoom. *)
Definition clamp (v lo hi : R) : R :=
  if v <? lo then lo else if v >? hi then hi else v.

(** The basis as the specification words it: [front], then [right] from
    [front] and the world up vector, then [up] from [right] and [front],
    the angles converted from degrees to radians. *)
Definition spec_basis (yaw pitch : R) (worldUp : vec3) : vec3 * vec3 * vec3 :=
  let to_radians := fun degrees : R => degrees * PI / 180 in
  let front :=
    glm.normalize
      (glm.mk_vec3 (cos (to_radians yaw) * cos (to_radians pitch))
                   (sin (to_radians pitch))
                   (sin (to_radians yaw) * cos (to_radians pitch))) in
  let right := glm.normalize (glm.cross front worldUp) in
  let up := glm.normalize (glm.cross right front) in
  (front, right, up).

(** The point at distance [radius] from [target] that the orbit operations
    move the camera to, for the angles [alpha] and [beta] in radians: one
    radius for the three axes. *)
Definition on_sphere (target : vec3) (radius alpha beta : R) : vec3 :=
  glm.mk_vec3 (glm.x target - radius * cos alpha * cos beta)
              (glm.y target - radius * sin beta)
              (glm.z target - radius * sin alpha * cos beta).

(** The basis members of an object are the ones [updateCameraVectors]
    computes from its angles and its world up vector. *)
Definition basis_current (c : Camera) : Prop :=
  Front c = glm.normalize (front_of (Yaw c) (Pitch c))
  /\ Right c = glm.normalize (glm.cross (Front c) (WorldUp c))
  /\ Up c = glm.normalize (glm.cross (Right c) (Front c)).

(** ** The view matrix *)

Module glm4.

Record vec4 : Type := mk_vec4 { x : R; y : R; z : R; w : R }.

(** A [glm::mat4] is four columns: [m[i]] is column [i], and [m[i][j]] is
    the entry of column [i] and row [j]. *)
Record mat4 : Type := mk_mat4 {
  col0 : vec4;
  col1 : vec4;
  col2 : vec4;
  col3 : vec4
}.

(** [m * v], the matrix applied to a column vector. *)
Definition mul (m : mat4) (v : vec4) : vec4 :=
  mk_vec4
    (x (col0 m) * x v + x (col1 m) * y v + x (col2 m) * z v + x (col3 m) * w v)
    (y (col0 m) * x v + y (col1 m) * y v + y (col2 m) * z v + y (col3 m) * w v)
    (z (col0 m) * x v + z (col1 m) * y v + z (col2 m) * z v + z (col3 m) * w v)
    (w (col0 m) * x v + w (col1 m) * y v + w (col2 m) * z v + w (col3 m) * w v).

(** A point and a direction of space in homogeneous coordinates. *)
Definition point (p : vec3) : vec4 := mk_vec4 (glm.x p) (glm.y p) (glm.z p) 1.
Definition direction (d : vec3) : vec4 :=
  mk_vec4 (glm.x d) (glm.y d) (glm.z d) 0.

(** The first three components of a homogeneous vector, [glm::vec3(v)]. *)
Definition xyz (v : vec4) : vec3 := glm.mk_vec3 (x v) (y v) (z v).

(** Modelled from the spec: [glm::lookAt] belongs to the GLM library, which
    is not among the sources; it is the look-at transform from [eye] toward
    [center] with [up] as the reference up vector, in GLM's default
    right-handed form: the rows of the rotation are [s], [u] and [-f]. *)
Definition lookAt (eye center up : vec3) : mat4 :=
  let f := glm.normalize (glm.sub center eye) in
  let s := glm.normalize (glm.cross f up) in
  let u := glm.cross s f in
  mk_mat4
    (mk_vec4 (glm.x s) (glm.x u) (- glm.x f) 0)
    (mk_vec4 (glm.y s) (glm.y u) (- glm.y f) 0)
    (mk_vec4 (glm.z s) (glm.z u) (- glm.z f) 0)
    (mk_vec4 (- glm.dot s eye) (- glm.dot u eye) (glm.dot f eye) 1).

End glm4.

(** [glm::mat4 GetViewMatrix()] *)
Definition GetViewMatrix (c : Camera) : glm4.mat4 :=
  glm4.lookAt (Position c) (glm.add (Position c) (Front c)) (Up c).

(** ** Further vocabulary *)

(** The direction that undoes a direction. *)
Definition opposite (direction : Camera_Movement) : Camera_Movement :=
  match direction with
  | FORWARD => BACKWARD
  | BACKWARD => FORWARD
  | LEFT => RIGHT
  | RIGHT => LEFT
  end.

(** The vector a keyboard step adds to the position. *)
Definition displacement (direction : Camera_Movement) (deltaTime : R)
    (c : Camera) : vec3 :=
  let velocity := MovementSpeed c * deltaTime in
  match direction with
  | FORWARD => glm.scale (Front c) velocity
  | BACKWARD => glm.scale (Front c) (- velocity)
  | LEFT => glm.scale (Right c) (- velocity)
  | RIGHT => glm.scale (Right c) velocity
  end.

(** The object an orbit call leaves when it has brought the two angles to
    [yaw] and [pitch]: the angles stored, the position placed at the
    distance it had from the target, the basis recomputed. *)
Definition orbit_to (target : vec3) (yaw pitch : R) (c : Camera) : Camera :=
  updateCameraVectors
    (set_Position
       (on_sphere target
          (distance_from_camera_to_target (Position c) target)
          (degree_to_radian yaw) (degree_to_radian pitch))
       (set_Pitch pitch (set_Yaw yaw c))).

(** The front vector of an object, as computed from its angles, is not
    parallel to its world up vector. *)
Definition regular (c : Camera) : Prop :=
  ~ parallel (front_of (Yaw c) (Pitch c)) (WorldUp c).

(** ** The same code over floats with infinities and NaN

    The embedding above reads a [float] as a real number.  A [float] can
    also be an infinity or NaN, and the code accepts them as arguments and
    as values of its public members.  The module below is the same code
    over a type of floats that has them, with the rules of IEEE 754 for
    them; finite arithmetic stays exact (no rounding, no overflow, one
    zero). *)

Module Ieee.

Inductive float : Type :=
| Num (r : R)
| PInf
| NInf
| NaN.

Definition fneg (a : float) : float :=
  match a with
  | Num r => Num (- r)
  | PInf => NInf
  | NInf => PInf
  | NaN => NaN
  end.

Definition fadd (a b : float) : float :=
  match a, b with
  | NaN, _ | _, NaN => NaN
  | Num r, Num s => Num (r + s)
  | PInf, NInf | NInf, PInf => NaN
  | PInf, _ | _, PInf => PInf
  | NInf, _ | _, NInf => NInf
  end.

Definition fsub (a b : float) : float := fadd a (fneg b).

(** An infinity of the given sign multiplied by the number [r], or a number
    of the sign of [r] divided by zero. *)
Definition signed_inf (positive : bool) (r : R) : float :=
  if 0 <? r then (if positive then PInf else NInf)
  else if r <? 0 then (if positive then NInf else PInf)
  else NaN.

Definition fmul (a b : float) : float :=
  match a, b with
  | NaN, _ | _, NaN => NaN
  | Num r, Num s => Num (r * s)
  | PInf, Num s | Num s, PInf => signed_inf true s
  | NInf, Num s | Num s, NInf => signed_inf false s
  | PInf, PInf | NInf, NInf => PInf
  | PInf, NInf | NInf, PInf => NInf
  end.

Definition fdiv (a b : float) : float :=
  match a, b with
  | NaN, _ | _, NaN => NaN
  | Num r, Num s => if Req_dec_T s 0 then signed_inf true r else Num (r / s)
  | Num _, PInf | Num _, NInf => Num 0
  | PInf, Num s => if s <? 0 then NInf else PInf
  | NInf, Num s => if s <? 0 then PInf else NInf
  | PInf, PInf | PInf, NInf | NInf, PInf | NInf, NInf => NaN
  end.

Definition fsqrt (a : float) : float :=
  match a with
  | Num r => if r <? 0 then NaN else Num (sqrt r)
  | PInf => PInf
  | NInf | NaN => NaN
  end.

Definition fcos (a : float) : float :=
  match a with
  | Num r => Num (cos r)
  | _ => NaN
  end.

Definition fsin (a : float) : float :=
  match a with
  | Num r => Num (sin r)
  | _ => NaN
  end.

(** The comparisons: every comparison with NaN is false. *)
Definition flt (a b : float) : bool :=
  match a, b with
  | NaN, _ | _, NaN => false
  | Num r, Num s => r <? s
  | NInf, NInf | PInf, _ | _, NInf => false
  | NInf, _ | _, PInf => true
  end.

Definition fle (a b : float) : bool :=
  match a, b with
  | NaN, _ | _, NaN => false
  | Num r, Num s => r <=? s
  | NInf, _ | _, PInf => true
  | PInf, _ | _, NInf => false
  end.

Definition fgt (a b : float) : bool := flt b a.
Definition fge (a b : float) : bool := fle b a.

(** [glm::vec3] and the functions of GLM on it. *)
Record vec3 : Type := mk_vec3 { x : float; y : float; z : float }.

Definition zero : vec3 := mk_vec3 (Num 0) (Num 0) (Num 0).

Definition vadd (a b : vec3) : vec3 :=
  mk_vec3 (fadd (x a) (x b)) (fadd (y a) (y b)) (fadd (z a) (z b)).
Definition vsub (a b : vec3) : vec3 :=
  mk_vec3 (fsub (x a) (x b)) (fsub (y a) (y b)) (fsub (z a) (z b)).
Definition vscale (v : vec3) (s : float) : vec3 :=
  mk_vec3 (fmul (x v) s) (fmul (y v) s) (fmul (z v) s).

Definition dot (a b : vec3) : float :=
  fadd (fadd (fmul (x a) (x b)) (fmul (y a) (y b))) (fmul (z a) (z b)).

(** Modelled from the spec: [glm::cross], as above. *)
Definition cross (a b : vec3) : vec3 :=
  mk_vec3 (fsub (fmul (y a) (z b)) (fmul (y b) (z a)))
          (fsub (fmul (z a) (x b)) (fmul (z b) (x a)))
          (fsub (fmul (x a) (y b)) (fmul (x b) (y a))).

(** Modelled from the spec: [glm::normalize], as above; at the zero vector
    the division gives an infinity and the product NaN. *)
Definition normalize (v : vec3) : vec3 :=
  vscale v (fdiv (Num 1) (fsqrt (dot v v))).

(** Modelled from the spec: [glm::radians], as above. *)
Definition radians (degrees : float) : float := fmul degrees (Num (PI / 180)).

Record Camera : Type := mkCamera {
  Position : vec3;
  Front : vec3;
  Up : vec3;
  Right : vec3;
  WorldUp : vec3;
  Yaw : float;
  Pitch : float;
  MovementSpeed : float;
  MouseSensitivity : float;
  Zoom : float
}.

Definition set_Position (v : vec3) (c : Camera) : Camera :=
  mkCamera v (Front c) (Up c) (Right c) (WorldUp c) (Yaw c) (Pitch c)
           (MovementSpeed c) (MouseSensitivity c) (Zoom c).
Definition set_Front (v : vec3) (c : Camera) : Camera :=
  mkCamera (Position c) v (Up c) (Right c) (WorldUp c) (Yaw c) (Pitch c)
           (MovementSpeed c) (MouseSensitivity c) (Zoom c).
Definition set_Up (v : vec3) (c : Camera) : Camera :=
  mkCamera (Position c) (Front c) v (Right c) (WorldUp c) (Yaw c) (Pitch c)
           (MovementSpeed c) (MouseSensitivity c) (Zoom c).
Definition set_Right (v : vec3) (c : Camera) : Camera :=
  mkCamera (Position c) (Front c) (Up c) v (WorldUp c) (Yaw c) (Pitch c)
           (MovementSpeed c) (MouseSensitivity c) (Zoom c).
Definition set_WorldUp (v : vec3) (c : Camera) : Camera :=
  mkCamera (Position c) (Front c) (Up c) (Right c) v (Yaw c) (Pitch c)
           (MovementSpeed c) (MouseSensitivity c) (Zoom c).
Definition set_Yaw (r : float) (c : Camera) : Camera :=
  mkCamera (Position c) (Front c) (Up c) (Right c) (WorldUp c) r (Pitch c)
           (MovementSpeed c) (MouseSensitivity c) (Zoom c).
Definition set_Pitch (r : float) (c : Camera) : Camera :=
  mkCamera (Position c) (Front c) (Up c) (Right c) (WorldUp c) (Yaw c) r
           (MovementSpeed c) (MouseSensitivity c) (Zoom c).
Definition set_Zoom (r : float) (c : Camera) : Camera :=
  mkCamera (Position c) (Front c) (Up c) (Right c) (WorldUp c) (Yaw c)
           (Pitch c) (MovementSpeed c) (MouseSensitivity c) r.

Definition front_of (yaw pitch : float) : vec3 :=
  mk_vec3 (fmul (fcos (radians yaw)) (fcos (radians pitch)))
          (fsin (radians pitch))
          (fmul (fsin (radians yaw)) (fcos (radians pitch))).

(** [void updateCameraVectors()] *)
Definition updateCameraVectors (c : Camera) : Camera :=
  let front := front_of (Yaw c) (Pitch c) in
  let c := set_Front (normalize front) c in
  let c := set_Right (normalize (cross (Front c) (WorldUp c))) c in
  let c := set_Up (normalize (cross (Right c) (Front c))) c in
  c.

(** [float distance_from_camera_to_target(camera_position, target_position)] *)
Definition distance_from_camera_to_target
    (camera_position target_position : vec3) : float :=
  let distance_x := fsub (x camera_position) (x target_position) in
  let distance_y := fsub (y camera_position) (y target_position) in
  let distance_z := fsub (z camera_position) (z target_position) in
  fsqrt (fadd (fadd (fmul distance_x distance_x) (fmul distance_y distance_y))
              (fmul distance_z distance_z)).

(** [float degree_to_radian(float degree)] *)
Definition degree_to_radian (degree : float) : float :=
  fmul (fdiv degree (Num 180)) (Num Macro.PI).

(** The object as the member initialiser list leaves it, the members that
    are not yet set taken as 0. *)
Definition Camera_initialised : Camera :=
  mkCamera zero (mk_vec3 (Num 0) (Num 0) (Num (-1))) zero zero zero
           (Num 0) (Num 0) (Num SPEED) (Num SENSITIVITY) (Num ZOOM).

(** [Camera(glm::vec3 position, glm::vec3 up, float yaw, float pitch)] *)
Definition Camera_new (position up : vec3) (yaw pitch : float) : Camera :=
  let c := Camera_initialised in
  let c := set_Position position c in
  let c := set_WorldUp up c in
  let c := set_Yaw yaw c in
  let c := set_Pitch pitch c in
  updateCameraVectors c.

(** The camera all of whose constructor arguments are defaulted. *)
Definition Camera_default : Camera :=
  Camera_new zero (mk_vec3 (Num 0) (Num 1) (Num 0)) (Num YAW) (Num PITCH).

(** [void ProcessKeyboard(Camera_Movement direction, float deltaTime)] *)
Definition ProcessKeyboard (direction : Camera_Movement) (deltaTime : float)
    (c : Camera) : Camera :=
  let velocity := fmul (MovementSpeed c) deltaTime in
  let c := if Camera_Movement_eqb direction FORWARD
           then set_Position (vadd (Position c) (vscale (Front c) velocity)) c
           else c in
  let c := if Camera_Movement_eqb direction BACKWARD
           then set_Position (vsub (Position c) (vscale (Front c) velocity)) c
           else c in
  let c := if Camera_Movement_eqb direction LEFT
           then set_Position (vsub (Position c) (vscale (Right c) velocity)) c
           else c in
  let c := if Camera_Movement_eqb direction RIGHT
           then set_Position (vadd (Position c) (vscale (Right c) velocity)) c
           else c in
  c.

(** [void ProcessMouseMovement(float xoffset, float yoffset,
                               GLboolean constrainPitch = true)] *)
Definition ProcessMouseMovement (xoffset yoffset : float)
    (constrainPitch : bool) (c : Camera) : Camera :=
  let xoffset := fmul xoffset (MouseSensitivity c) in
  let yoffset := fmul yoffset (MouseSensitivity c) in
  let c := set_Yaw (fadd (Yaw c) xoffset) c in
  let c := set_Pitch (fadd (Pitch c) yoffset) c in
  let c := if constrainPitch then
             let c := if fgt (Pitch c) (Num 89) then set_Pitch (Num 89) c
                      else c in
             let c := if flt (Pitch c) (Num (-89)) then set_Pitch (Num (-89)) c
                      else c in
             c
           else c in
  updateCameraVectors c.

(** [void move_camera_in_sphere(float xoffset, float yoffset,
                                glm::vec3 target_position)] *)
Definition move_camera_in_sphere (xoffset yoffset : float)
    (target_position : vec3) (c : Camera) : Camera :=
  let xoffset := fmul xoffset (fmul (MouseSensitivity c) (Num 0.1)) in
  let yoffset := fmul yoffset (fmul (MouseSensitivity c) (Num 0.1)) in
  let c := set_Yaw (fsub (Yaw c) xoffset) c in
  let c := set_Pitch (fsub (Pitch c) yoffset) c in
  let alpha := degree_to_radian (Yaw c) in
  let beta := degree_to_radian (Pitch c) in
  let distance := distance_from_camera_to_target (Position c) target_position in
  let c := set_Position
             (mk_vec3
                (fsub (x target_position)
                      (fmul (fmul distance (fcos alpha)) (fcos beta)))
                (y (Position c)) (z (Position c))) c in
  let c := set_Position
             (mk_vec3
                (x (Position c))
                (fsub (y target_position) (fmul distance (fsin beta)))
                (z (Position c))) c in
  let c := set_Position
             (mk_vec3
                (x (Position c)) (y (Position c))
                (fsub (z target_position)
                      (fmul (fmul distance (fsin alpha)) (fcos beta)))) c in
  updateCameraVectors c.

(** [void move_camera_in_ellipsoid(float xoffset, float yoffset,
                                   glm::vec3 target_position)] *)
Definition move_camera_in_ellipsoid (xoffset yoffset : float)
    (target_position : vec3) (c : Camera) : Camera :=
  let xoffset := fmul xoffset (fmul (MouseSensitivity c) (Num 0.1)) in
  let yoffset := fmul yoffset (fmul (MouseSensitivity c) (Num 0.1)) in
  let c := set_Yaw (fsub (Yaw c) xoffset) c in
  let c := set_Pitch (fsub (Pitch c) yoffset) c in
  let alpha := degree_to_radian (Yaw c) in
  let beta := degree_to_radian (Pitch c) in
  let distance := distance_from_camera_to_target (Position c) target_position in
  let c := set_Position
             (mk_vec3
                (fsub (x target_position)
                      (fmul (fmul distance (fcos alpha)) (fcos beta)))
                (y (Position c)) (z (Position c))) c in
  let c := set_Position
             (mk_vec3
                (x (Position c))
                (fsub (y target_position) (fmul distance (fsin beta)))
                (z (Position c))) c in
  let c := set_Position
             (mk_vec3
                (x (Position c)) (y (Position c))
                (fsub (z target_position)
                      (fmul (fmul distance (fsin alpha)) (fcos beta)))) c in
  updateCameraVectors c.

(** [void ProcessMouseScroll(float yoffset)] *)
Definition ProcessMouseScroll (yoffset : float) (c : Camera) : Camera :=
  let c := if fge (Zoom c) (Num 1) && fle (Zoom c) (Num 45)
           then set_Zoom (fsub (Zoom c) yoffset) c else c in
  let c := if fle (Zoom c) (Num 1) then set_Zoom (Num 1) c else c in
  let c := if fge (Zoom c) (Num 45) then set_Zoom (Num 45) c else c in
  c.

(** The objects observed after each call of a sequence of calls of one
    operation, first call first. *)
Fixpoint states_after (A : Type) (f : A -> Camera -> Camera)
    (inputs : list A) (c : Camera) : list Camera :=
  match inputs with
  | [] => []
  | a :: rest => let c' := f a c in c' :: states_after f rest c'
  end.

Definition constrained_look (offsets : float * float) (c : Camera) : Camera :=
  ProcessMouseMovement (fst offsets) (snd offsets) true c.

(** The calls of the public interface that change the object. *)
Inductive Call : Type :=
| CallKeyboard (direction : Camera_Movement) (deltaTime : float)
| CallMouseMovement (xoffset yoffset : float) (constrainPitch : bool)
| CallSphere (xoffset yoffset : float) (target_position : vec3)
| CallEllipsoid (xoffset yoffset : float) (target_position : vec3)
| CallMouseScroll (yoffset : float).

Definition perform (k : Call) (c : Camera) : Camera :=
  match k with
  | CallKeyboard direction deltaTime => ProcessKeyboard direction deltaTime c
  | CallMouseMovement xoffset yoffset constrainPitch =>
      ProcessMouseMovement xoffset yoffset constrainPitch c
  | CallSphere xoffset yoffset target =>
      move_camera_in_sphere xoffset yoffset target c
  | CallEllipsoid xoffset yoffset target =>
      move_camera_in_ellipsoid xoffset yoffset target c
  | CallMouseScroll yoffset => ProcessMouseScroll yoffset c
  end.

Definition run_calls (calls : list Call) (c : Camera) : Camera :=
  fold_left (fun s k => perform k s) calls c.

(** The delta of a scroll call is not NaN; the other calls pass. *)
Definition scroll_delta_not_NaN (k : Call) : Prop :=
  match k with
  | CallMouseScroll yoffset => yoffset <> NaN
  | _ => True
  end.

(** A float is a number of the closed interval from [lo] to [hi]. *)
Definition in_interval (lo hi : R) (a : float) : Prop :=
  match a with
  | Num r => lo <= r <= hi
  | _ => False
  end.

(** A float is a number: neither an infinity nor NaN. *)
Definition is_number (a : float) : Prop :=
  match a with
  | Num _ => True
  | _ => False
  end.

Definition pitch_in_range (c : Camera) : Prop := in_interval (-89) 89 (Pitch c).

Definition zoom_in_range (c : Camera) : Prop := in_interval 1 45 (Zoom c).

(** The basis members of an object are the ones [updateCameraVectors]
    computes from its angles and its world up vector. *)
Definition basis_current (c : Camera) : Prop :=
  Front c = normalize (front_of (Yaw c) (Pitch c))
  /\ Right c = normalize (cross (Front c) (WorldUp c))
  /\ Up c = normalize (cross (Right c) (Front c)).

(** Straightforward clamping of [v] to the interval from [lo] to [hi]; NaN
    passes both comparisons and stays. *)
Definition clamp (v : float) (lo hi : R) : float :=
  if flt v (Num lo) then Num lo else if fgt v (Num hi) then Num hi else v.

End Ieee.

(** The object over the reals, as an object over the floats: every member a
    number. *)
Definition inject_vec3 (v : vec3) : Ieee.vec3 :=
  Ieee.mk_vec3 (Ieee.Num (glm.x v)) (Ieee.Num (glm.y v)) (Ieee.Num (glm.z v)).

Definition inject (c : Camera) : Ieee.Camera :=
  Ieee.mkCamera (inject_vec3 (Position c)) (inject_vec3 (Front c))
                (inject_vec3 (Up c)) (inject_vec3 (Right c))
                (inject_vec3 (WorldUp c)) (Ieee.Num (Yaw c))
                (Ieee.Num (Pitch c)) (Ieee.Num (MovementSpeed c))
                (Ieee.Num (MouseSensitivity c)) (Ieee.Num (Zoom c)).

(** * Lemmas *)

(** ** Comparisons *)

Lemma Rltb_true (a b : R) : (a <? b) = true <-> a < b.
Proof. unfold Rltb. destruct (Rlt_dec a b); split; intros; easy. Qed.

Lemma Rltb_false (a b : R) : (a <? b) = false <-> b <= a.
Proof.
  unfold Rltb. destruct (Rlt_dec a b); split; intros; try easy; lra.
Qed.

Lemma Rleb_true (a b : R) : (a <=? b) = true <-> a <= b.
Proof. unfold Rleb. destruct (Rle_dec a b); split; intros; easy. Qed.

Lemma Rleb_false (a b : R) : (a <=? b) = false <-> b < a.
Proof.
  unfold Rleb. destruct (Rle_dec a b); split; intros; try easy; lra.
Qed.

(** Decide the comparisons of the goal, innermost first, and hand the cases
    to [lra]. *)
Ltac flat t :=
  lazymatch t with
  | context [Rle_dec _ _] => fail
  | context [Rlt_dec _ _] => fail
  | _ => idtac
  end.

Ltac decide_comparison :=
  match goal with
  | |- context [Rle_dec ?a ?b] => flat a; flat b; destruct (Rle_dec a b)
  | |- context [Rlt_dec ?a ?b] => flat a; flat b; destruct (Rlt_dec a b)
  end.

Ltac compare_all :=
  unfold Rgtb, Rgeb, Rltb, Rleb in *;
  repeat (decide_comparison; cbn [andb Zoom set_Zoom Pitch set_Pitch]);
  try reflexivity; try lra.

(** ** Vectors *)

Lemma vec3_eq (a b : vec3) :
  glm.x a = glm.x b -> glm.y a = glm.y b -> glm.z a = glm.z b -> a = b.
Proof. destruct a, b; simpl; intros; subst; reflexivity. Qed.

Lemma dot_self_nonneg (v : vec3) : 0 <= glm.dot v v.
Proof. unfold glm.dot. nra. Qed.

Lemma dot_self_zero (v : vec3) : glm.dot v v = 0 -> v = glm.zero.
Proof.
  unfold glm.dot. intros H. apply vec3_eq; simpl; nra.
Qed.

Lemma dot_comm (a b : vec3) : glm.dot a b = glm.dot b a.
Proof. unfold glm.dot. ring. Qed.

Lemma dot_scale_l (a b : vec3) (s : R) :
  glm.dot (glm.scale a s) b = s * glm.dot a b.
Proof. unfold glm.dot, glm.scale. simpl. ring. Qed.

Lemma dot_scale_r (a b : vec3) (s : R) :
  glm.dot a (glm.scale b s) = s * glm.dot a b.
Proof. unfold glm.dot, glm.scale. simpl. ring. Qed.

Lemma dot_cross_left (a b : vec3) : glm.dot (glm.cross a b) a = 0.
Proof. unfold glm.dot, glm.cross. simpl. ring. Qed.

Lemma dot_cross_right (a b : vec3) : glm.dot (glm.cross a b) b = 0.
Proof. unfold glm.dot, glm.cross. simpl. ring. Qed.

(** Lagrange's identity. *)
Lemma dot_cross_cross (a b : vec3) :
  glm.dot (glm.cross a b) (glm.cross a b)
  = glm.dot a a * glm.dot b b - glm.dot a b * glm.dot a b.
Proof. unfold glm.dot, glm.cross. simpl. ring. Qed.

Lemma unit_length_dot (v : vec3) : unit_length v <-> glm.dot v v = 1.
Proof.
  unfold unit_length, glm.length. split; intros H.
  - rewrite <- (sqrt_sqrt (glm.dot v v)) by apply dot_self_nonneg.
    rewrite H. ring.
  - rewrite H. apply sqrt_1.
Qed.

Lemma normalize_of_unit (v : vec3) : glm.dot v v = 1 -> glm.normalize v = v.
Proof.
  intros H. unfold glm.normalize. rewrite H, sqrt_1.
  apply vec3_eq; simpl; field.
Qed.

Lemma normalize_unit_length (v : vec3) :
  v <> glm.zero -> glm.dot (glm.normalize v) (glm.normalize v) = 1.
Proof.
  intros Hv. unfold glm.normalize.
  rewrite dot_scale_l, dot_scale_r.
  assert (Hpos : 0 < glm.dot v v).
  { destruct (dot_self_nonneg v) as [H | H]; [exact H |].
    exfalso. apply Hv. apply dot_self_zero. symmetry. exact H. }
  assert (Hs : 0 < sqrt (glm.dot v v)) by (apply sqrt_lt_R0; exact Hpos).
  rewrite <- (sqrt_sqrt (glm.dot v v)) at 3 by lra.
  field. lra.
Qed.

Lemma front_of_dot (yaw pitch : R) :
  glm.dot (front_of yaw pitch) (front_of yaw pitch) = 1.
Proof.
  unfold glm.dot, front_of. simpl.
  generalize (sin2_cos2 (glm.radians yaw)) (sin2_cos2 (glm.radians pitch)).
  unfold Rsqr. intros Hy Hp. nra.
Qed.

(** ** Basis recomputation *)

(** What [updateCameraVectors] leaves in the three basis members. *)
Lemma updateCameraVectors_Front (c : Camera) :
  Front (updateCameraVectors c) = front_of (Yaw c) (Pitch c).
Proof. simpl. apply normalize_of_unit, front_of_dot. Qed.

Lemma updateCameraVectors_Right (c : Camera) :
  Right (updateCameraVectors c)
  = glm.normalize (glm.cross (front_of (Yaw c) (Pitch c)) (WorldUp c)).
Proof.
  simpl. rewrite (normalize_of_unit (front_of_dot _ _)). reflexivity.
Qed.

Lemma updateCameraVectors_Up (c : Camera) :
  Up (updateCameraVectors c)
  = glm.normalize (glm.cross (Right (updateCameraVectors c))
                             (Front (updateCameraVectors c))).
Proof. reflexivity. Qed.

(** The cross product of two perpendicular unit vectors is a unit vector. *)
Lemma cross_of_orthonormal_pair (a b : vec3) :
  glm.dot a a = 1 -> glm.dot b b = 1 -> glm.dot a b = 0 ->
  glm.dot (glm.cross a b) (glm.cross a b) = 1.
Proof. intros Ha Hb Hab. rewrite dot_cross_cross, Ha, Hb, Hab. ring. Qed.

Lemma updateCameraVectors_orthonormal (c : Camera) :
  ~ parallel (front_of (Yaw c) (Pitch c)) (WorldUp c) ->
  orthonormal (Front (updateCameraVectors c)) (Right (updateCameraVectors c))
              (Up (updateCameraVectors c)).
Proof.
  intros Hnp.
  rewrite updateCameraVectors_Up, updateCameraVectors_Right,
    updateCameraVectors_Front.
  set (f := front_of (Yaw c) (Pitch c)) in *.
  set (r := glm.normalize (glm.cross f (WorldUp c))).
  assert (Hf : glm.dot f f = 1) by apply front_of_dot.
  assert (Hr : glm.dot r r = 1) by (apply normalize_unit_length; exact Hnp).
  assert (Hfr : glm.dot f r = 0).
  { unfold r, glm.normalize.
    rewrite dot_scale_r, (dot_comm f (glm.cross f (WorldUp c))), dot_cross_left.
    ring. }
  assert (Hrf : glm.dot r f = 0) by (rewrite dot_comm; exact Hfr).
  assert (Hu : glm.normalize (glm.cross r f) = glm.cross r f)
    by (apply normalize_of_unit, cross_of_orthonormal_pair; assumption).
  rewrite Hu.
  constructor; unfold perpendicular; try (apply unit_length_dot).
  - exact Hf.
  - exact Hr.
  - apply cross_of_orthonormal_pair; assumption.
  - exact Hfr.
  - rewrite dot_comm. apply dot_cross_right.
  - rewrite dot_comm. apply dot_cross_left.
Qed.

(** [updateCameraVectors] writes the three basis members and nothing else. *)
Lemma updateCameraVectors_frame (c : Camera) :
  Position (updateCameraVectors c) = Position c
  /\ WorldUp (updateCameraVectors c) = WorldUp c
  /\ Yaw (updateCameraVectors c) = Yaw c
  /\ Pitch (updateCameraVectors c) = Pitch c
  /\ MovementSpeed (updateCameraVectors c) = MovementSpeed c
  /\ MouseSensitivity (updateCameraVectors c) = MouseSensitivity c
  /\ Zoom (updateCameraVectors c) = Zoom c.
Proof. repeat split. Qed.

Lemma updateCameraVectors_current (c : Camera) :
  basis_current (updateCameraVectors c).
Proof. repeat split. Qed.

Lemma perform_recomputing_current (k : Call) (c : Camera) :
  recomputes_basis k = true -> basis_current (perform k c).
Proof.
  destruct k; simpl; intros H; try discriminate;
    apply updateCameraVectors_current.
Qed.

Lemma ProcessKeyboard_basis (direction : Camera_Movement) (deltaTime : R)
    (c : Camera) :
  let c' := ProcessKeyboard direction deltaTime c in
  Front c' = Front c /\ Right c' = Right c /\ Up c' = Up c
  /\ WorldUp c' = WorldUp c /\ Yaw c' = Yaw c /\ Pitch c' = Pitch c.
Proof. destruct direction; repeat split. Qed.

Lemma ProcessMouseScroll_basis (yoffset : R) (c : Camera) :
  let c' := ProcessMouseScroll yoffset c in
  Front c' = Front c /\ Right c' = Right c /\ Up c' = Up c
  /\ WorldUp c' = WorldUp c /\ Yaw c' = Yaw c /\ Pitch c' = Pitch c.
Proof.
  unfold ProcessMouseScroll.
  destruct ((Zoom c >=? 1) && (Zoom c <=? 45)); simpl;
    repeat match goal with
           | |- context [if ?b then _ else _] => destruct b; simpl
           end; repeat split.
Qed.

Lemma perform_other_current (k : Call) (c : Camera) :
  recomputes_basis k = false -> basis_current c -> basis_current (perform k c).
Proof.
  unfold basis_current.
  destruct k; simpl perform; intros H (Hf & Hr & Hu); try discriminate.
  - destruct (ProcessKeyboard_basis direction deltaTime c)
      as (Ef & Er & Eu & Ew & Ey & Ep).
    rewrite Ef, Er, Eu, Ew, Ey, Ep. auto.
  - destruct (ProcessMouseScroll_basis yoffset c)
      as (Ef & Er & Eu & Ew & Ey & Ep).
    rewrite Ef, Er, Eu, Ew, Ey, Ep. auto.
Qed.

Lemma after_call_current (c : Camera) : after_call c -> basis_current c.
Proof.
  induction 1.
  - apply updateCameraVectors_current.
  - apply updateCameraVectors_current.
  - apply perform_recomputing_current; assumption.
  - apply perform_other_current; assumption.
Qed.

(** C1.  Every object observed immediately after a constructor or a mutating
    operation ([ProcessKeyboard], [ProcessMouseMovement],
    [move_camera_in_sphere], [move_camera_in_ellipsoid],
    [ProcessMouseScroll]) returns, and whose front vector as computed from
    its [Yaw] and [Pitch] is not parallel to its [WorldUp], has [Front],
    [Right] and [Up] of unit length and pairwise perpendicular, over the
    reals. *)
Theorem basis_orthonormal_after_call (c : Camera) :
  after_call c ->
  ~ parallel (front_of (Yaw c) (Pitch c)) (WorldUp c) ->
  orthonormal (Front c) (Right c) (Up c).
Proof.
  intros Hc Hnp.
  destruct (after_call_current Hc) as (Hf & Hr & Hu).
  generalize (updateCameraVectors_orthonormal c Hnp).
  simpl. rewrite <- Hf, <- Hr, <- Hu. trivial.
Qed.

(** ** The default camera *)

Lemma radians_YAW : glm.radians YAW = - (PI / 2).
Proof. unfold glm.radians, YAW. field. Qed.

Lemma radians_PITCH : glm.radians PITCH = 0.
Proof. unfold glm.radians, PITCH. ring. Qed.

Lemma front_of_default : front_of YAW PITCH = glm.mk_vec3 0 0 (-1).
Proof.
  unfold front_of. rewrite radians_YAW, radians_PITCH.
  rewrite cos_neg, sin_neg, cos_PI2, sin_PI2, cos_0, sin_0.
  apply vec3_eq; simpl; ring.
Qed.

Lemma default_not_parallel :
  ~ parallel (front_of (Yaw Camera_default) (Pitch Camera_default))
             (WorldUp Camera_default).
Proof.
  simpl. rewrite front_of_default. unfold parallel, glm.cross, glm.zero. simpl.
  intros H. apply (f_equal glm.x) in H. simpl in H. lra.
Qed.

(** The concrete scenario of the specification: the signs that the order of
    the two cross products pins down. *)
Example Camera_default_basis :
  Front Camera_default = glm.mk_vec3 0 0 (-1)
  /\ Right Camera_default = glm.mk_vec3 1 0 0
  /\ Up Camera_default = glm.mk_vec3 0 1 0.
Proof.
  assert (Hf : Front Camera_default = glm.mk_vec3 0 0 (-1)).
  { unfold Camera_default, Camera_new. rewrite updateCameraVectors_Front.
    simpl. apply front_of_default. }
  assert (Hr : Right Camera_default = glm.mk_vec3 1 0 0).
  { unfold Camera_default, Camera_new. rewrite updateCameraVectors_Right.
    simpl. rewrite front_of_default.
    replace (glm.cross (glm.mk_vec3 0 0 (-1)) (glm.mk_vec3 0 1 0))
      with (glm.mk_vec3 1 0 0)
      by (apply vec3_eq; unfold glm.cross; simpl; ring).
    apply normalize_of_unit. unfold glm.dot. simpl. ring. }
  repeat split; try assumption.
  unfold Camera_default, Camera_new. rewrite updateCameraVectors_Up.
  fold (Camera_new (glm.mk_vec3 0 0 0) (glm.mk_vec3 0 1 0) YAW PITCH).
  fold Camera_default. rewrite Hf, Hr.
  replace (glm.cross (glm.mk_vec3 1 0 0) (glm.mk_vec3 0 0 (-1)))
    with (glm.mk_vec3 0 1 0)
    by (apply vec3_eq; unfold glm.cross; simpl; ring).
  apply normalize_of_unit. unfold glm.dot. simpl. ring.
Qed.

Lemma basis_orthonormal_after_call_witness :
  after_call Camera_default
  /\ ~ parallel (front_of (Yaw Camera_default) (Pitch Camera_default))
                (WorldUp Camera_default)
  /\ orthonormal (Front Camera_default) (Right Camera_default)
                 (Up Camera_default).
Proof.
  split; [apply after_new |].
  split; [exact default_not_parallel |].
  apply (@basis_orthonormal_after_call Camera_default).
  - apply after_new.
  - exact default_not_parallel.
Defined.

(** [ProcessKeyboard] and [ProcessMouseScroll] carry the basis members over
    as they find them: a [Front] that a client wrote into the public member
    is still there after the call. *)
Example ProcessKeyboard_keeps_written_Front :
  Front (ProcessKeyboard FORWARD 1
           (set_Front (glm.mk_vec3 2 0 0) Camera_default))
  = glm.mk_vec3 2 0 0
  /\ Front (ProcessMouseScroll 1
              (set_Front (glm.mk_vec3 2 0 0) Camera_default))
     = glm.mk_vec3 2 0 0.
Proof.
  split.
  - reflexivity.
  - rewrite (proj1 (ProcessMouseScroll_basis 1 _)). reflexivity.
Qed.

(** C2.  [updateCameraVectors] sets [Front] to the normalised vector
    (cos yaw cos pitch, sin pitch, sin yaw cos pitch), the angles converted
    from degrees to radians, then [Right] to the normalised cross product of
    the new [Front] and [WorldUp], then [Up] to the normalised cross product
    of the new [Right] and the new [Front], for every yaw, pitch and world up
    vector: the three members are the specification's basis, the values the
    members had before the call play no part, and no other member changes. *)
Theorem updateCameraVectors_spec (c : Camera) :
  let c' := updateCameraVectors c in
  (Front c', Right c', Up c') = spec_basis (Yaw c) (Pitch c) (WorldUp c)
  /\ Right c' = glm.normalize (glm.cross (Front c') (WorldUp c))
  /\ Up c' = glm.normalize (glm.cross (Right c') (Front c'))
  /\ (forall front right up : vec3,
        updateCameraVectors (set_Front front (set_Right right (set_Up up c)))
        = c')
  /\ c' = set_Up (Up c') (set_Right (Right c') (set_Front (Front c') c)).
Proof.
  assert (Hrad : forall d : R, d * PI / 180 = glm.radians d)
    by (intros d; unfold glm.radians; field).
  repeat split.
  unfold spec_basis. simpl. rewrite !Hrad. reflexivity.
Qed.

(** ** Clamping *)

Lemma clamp_in_range (v lo hi : R) : lo <= hi -> lo <= clamp v lo hi <= hi.
Proof. intros H. unfold clamp. compare_all. Qed.

Lemma clamp_id (v lo hi : R) : lo <= v <= hi -> clamp v lo hi = v.
Proof. intros H. unfold clamp. compare_all. Qed.

(** The pitch that a mouse-look call leaves. *)
Lemma ProcessMouseMovement_Pitch (xoffset yoffset : R) (constrainPitch : bool)
    (c : Camera) :
  Pitch (ProcessMouseMovement xoffset yoffset constrainPitch c)
  = if constrainPitch
    then clamp (Pitch c + yoffset * MouseSensitivity c) (-89) 89
    else Pitch c + yoffset * MouseSensitivity c.
Proof.
  destruct constrainPitch; [| reflexivity].
  unfold ProcessMouseMovement, clamp. cbv zeta.
  change (Pitch (updateCameraVectors ?s)) with (Pitch s).
  cbn [Pitch set_Pitch set_Yaw MouseSensitivity].
  compare_all.
Qed.

Lemma constrained_look_in_range (offsets : R * R) (c : Camera) :
  pitch_in_range (constrained_look offsets c).
Proof.
  unfold pitch_in_range, constrained_look.
  rewrite ProcessMouseMovement_Pitch. apply clamp_in_range. lra.
Qed.

Lemma states_after_all (A : Type) (f : A -> Camera -> Camera)
    (P : Camera -> Prop) :
  (forall a c, P (f a c)) ->
  forall inputs c, Forall P (states_after f inputs c).
Proof.
  intros Hf inputs. induction inputs as [| a rest IH]; intros c; simpl.
  - constructor.
  - constructor; [apply Hf | apply IH].
Qed.

Lemma states_after_preserved (A : Type) (f : A -> Camera -> Camera)
    (P : Camera -> Prop) :
  (forall a c, P c -> P (f a c)) ->
  forall inputs c, P c -> Forall P (states_after f inputs c).
Proof.
  intros Hf inputs. induction inputs as [| a rest IH]; intros c Hc; simpl.
  - constructor.
  - constructor; [apply Hf; exact Hc | apply IH, Hf; exact Hc].
Qed.

Lemma states_after_length (A : Type) (f : A -> Camera -> Camera)
    (inputs : list A) (c : Camera) :
  length (states_after f inputs c) = length inputs.
Proof.
  revert c. induction inputs as [| a rest IH]; intros c; simpl;
    [reflexivity | rewrite IH; reflexivity].
Qed.

(** ** Zoom *)

(** The zoom that a scroll call leaves, by the position of the zoom before
    the call. *)
Lemma ProcessMouseScroll_Zoom (yoffset : R) (c : Camera) :
  Zoom (ProcessMouseScroll yoffset c)
  = if (Zoom c >=? 1) && (Zoom c <=? 45)
    then clamp (Zoom c - yoffset) 1 45
    else if Zoom c <=? 1 then 1 else 45.
Proof.
  unfold ProcessMouseScroll, clamp. cbv zeta. compare_all.
Qed.

Lemma ProcessMouseScroll_in_range (yoffset : R) (c : Camera) :
  zoom_in_range (ProcessMouseScroll yoffset c).
Proof.
  unfold zoom_in_range. rewrite ProcessMouseScroll_Zoom.
  destruct ((Zoom c >=? 1) && (Zoom c <=? 45)).
  - apply clamp_in_range. lra.
  - destruct (Zoom c <=? 1); lra.
Qed.

(** A scroll call writes [Zoom] and nothing else. *)
Lemma ProcessMouseScroll_frame (yoffset : R) (c : Camera) :
  ProcessMouseScroll yoffset c
  = set_Zoom (Zoom (ProcessMouseScroll yoffset c)) c.
Proof.
  unfold ProcessMouseScroll. cbv zeta.
  repeat match goal with
         | |- context [if ?b then _ else _] => destruct b; cbn
         end; try reflexivity; destruct c; reflexivity.
Qed.

(** C8, as stated, fails: from the zoom 50, outside [1, 45], a scroll by 10
    leaves 45 where clamping the decremented zoom gives 40. *)
Lemma scroll_is_not_clamp_of_difference :
  let c := set_Zoom 50 Camera_default in
  Zoom (ProcessMouseScroll 10 c) = 45
  /\ clamp (Zoom c - 10) 1 45 = 40
  /\ Zoom (ProcessMouseScroll 10 c) <> clamp (Zoom c - 10) 1 45.
Proof.
  cbv zeta.
  assert (H1 : Zoom (ProcessMouseScroll 10 (set_Zoom 50 Camera_default)) = 45).
  { rewrite ProcessMouseScroll_Zoom. cbn [Zoom set_Zoom]. compare_all. }
  assert (H2 : clamp (Zoom (set_Zoom 50 Camera_default) - 10) 1 45 = 40).
  { cbn [Zoom set_Zoom]. unfold clamp. compare_all. }
  split; [exact H1 |]. split; [exact H2 |].
  rewrite H1, H2. lra.
Qed.

(** ** Orbiting *)

Lemma sin2_cos2_mult (a : R) : sin a * sin a + cos a * cos a = 1.
Proof. exact (sin2_cos2 a). Qed.

(** A point placed by [on_sphere] lies at the distance [radius] from the
    target, whatever the two angles are. *)
Lemma on_sphere_distance (target : vec3) (radius alpha beta : R) :
  0 <= radius ->
  distance_from_camera_to_target (on_sphere target radius alpha beta) target
  = radius.
Proof.
  intros Hr. unfold distance_from_camera_to_target, on_sphere. cbn.
  rewrite <- (sqrt_square radius Hr) at 7.
  f_equal.
  generalize (sin2_cos2_mult alpha) (sin2_cos2_mult beta).
  generalize (sin alpha) (cos alpha) (sin beta) (cos beta).
  intros sa ca sb cb Ha Hb.
  transitivity (radius * radius
                * (cb * cb * (sa * sa + ca * ca) + sb * sb)); [ring |].
  rewrite Ha. replace (cb * cb * 1 + sb * sb) with (sb * sb + cb * cb) by ring.
  rewrite Hb. ring.
Qed.

Lemma distance_nonneg (a b : vec3) : 0 <= distance_from_camera_to_target a b.
Proof. unfold distance_from_camera_to_target. cbv zeta. apply sqrt_pos. Qed.

(** The members that [move_camera_in_sphere] leaves. *)
Lemma move_camera_in_sphere_Position (xoffset yoffset : R) (target : vec3)
    (c : Camera) :
  let c' := move_camera_in_sphere xoffset yoffset target c in
  Position c'
  = on_sphere target (distance_from_camera_to_target (Position c) target)
              (degree_to_radian (Yaw c')) (degree_to_radian (Pitch c')).
Proof. reflexivity. Qed.

Lemma move_camera_in_sphere_angles (xoffset yoffset : R) (target : vec3)
    (c : Camera) :
  let c' := move_camera_in_sphere xoffset yoffset target c in
  Yaw c' = Yaw c - xoffset * MouseSensitivity c * 0.1
  /\ Pitch c' = Pitch c - yoffset * MouseSensitivity c * 0.1.
Proof. cbn. split; ring. Qed.

(** C5.  The distance from [Position] to the target after
    [move_camera_in_sphere] returns equals the distance before the call, for
    every object, target and offsets, over the reals. *)
Theorem move_camera_in_sphere_keeps_distance (xoffset yoffset : R)
    (target : vec3) (c : Camera) :
  distance_from_camera_to_target
    (Position (move_camera_in_sphere xoffset yoffset target c)) target
  = distance_from_camera_to_target (Position c) target.
Proof.
  rewrite move_camera_in_sphere_Position.
  apply on_sphere_distance, distance_nonneg.
Qed.

(** C6.  [move_camera_in_ellipsoid] and [move_camera_in_sphere] are the same
    transition: from every object and for all offsets and targets they leave
    the same object; the position both leave applies one radius, the
    distance before the call, to the three axes, and so stays at that
    distance from the target. *)
Theorem move_camera_in_ellipsoid_is_sphere (xoffset yoffset : R)
    (target : vec3) (c : Camera) :
  let e := move_camera_in_ellipsoid xoffset yoffset target c in
  e = move_camera_in_sphere xoffset yoffset target c
  /\ Position e
     = on_sphere target (distance_from_camera_to_target (Position c) target)
                 (degree_to_radian (Yaw e)) (degree_to_radian (Pitch e))
  /\ distance_from_camera_to_target (Position e) target
     = distance_from_camera_to_target (Position c) target.
Proof.
  split; [reflexivity |]. split; [reflexivity |].
  change (move_camera_in_ellipsoid xoffset yoffset target c)
    with (move_camera_in_sphere xoffset yoffset target c).
  rewrite move_camera_in_sphere_Position.
  apply on_sphere_distance, distance_nonneg.
Qed.

(** C7.  [move_camera_in_sphere] subtracts [xoffset * MouseSensitivity * 0.1]
    from [Yaw] and [yoffset * MouseSensitivity * 0.1] from [Pitch], where
    mouse-look adds the scaled offsets; it passes both angles through
    [degree_to_radian] for the new position; and it does not clamp [Pitch]:
    from the default camera, a vertical offset of 10000 leaves the pitch
    -100, outside [-89, 89]. *)
Theorem move_camera_in_sphere_angles_unclamped (xoffset yoffset : R)
    (target : vec3) (c : Camera) :
  let c' := move_camera_in_sphere xoffset yoffset target c in
  Yaw c' = Yaw c - xoffset * MouseSensitivity c * 0.1
  /\ Pitch c' = Pitch c - yoffset * MouseSensitivity c * 0.1
  /\ Yaw (ProcessMouseMovement xoffset yoffset false c)
     = Yaw c + xoffset * MouseSensitivity c
  /\ Pitch (ProcessMouseMovement xoffset yoffset false c)
     = Pitch c + yoffset * MouseSensitivity c
  /\ Position c'
     = on_sphere target (distance_from_camera_to_target (Position c) target)
                 (Yaw c' / 180 * 3.14159) (Pitch c' / 180 * 3.14159)
  /\ Pitch (move_camera_in_sphere 0 10000 glm.zero Camera_default) = -100
  /\ ~ pitch_in_range (move_camera_in_sphere 0 10000 glm.zero Camera_default).
Proof.
  assert (H100 : Pitch (move_camera_in_sphere 0 10000 glm.zero Camera_default)
                 = -100).
  { rewrite (proj2 (move_camera_in_sphere_angles 0 10000 glm.zero
                      Camera_default)).
    cbn. unfold PITCH, SENSITIVITY. lra. }
  cbv zeta.
  destruct (move_camera_in_sphere_angles xoffset yoffset target c) as (Hy & Hp).
  repeat split; try assumption; try reflexivity.
  unfold pitch_in_range. rewrite H100. lra.
Qed.

(** ** Keyboard movement *)

(** C9.  [ProcessKeyboard(FORWARD, t)] followed by
    [ProcessKeyboard(BACKWARD, t)] returns [Position], and the whole object,
    to what it was, for every object and every [t], over the reals: the
    first call adds [Front * (MovementSpeed * t)] to [Position], the second
    subtracts it, and neither changes another member. *)
Theorem forward_then_backward (c : Camera) (deltaTime : R) :
  ProcessKeyboard BACKWARD deltaTime (ProcessKeyboard FORWARD deltaTime c) = c
  /\ Position (ProcessKeyboard BACKWARD deltaTime
                 (ProcessKeyboard FORWARD deltaTime c)) = Position c
  /\ ProcessKeyboard FORWARD deltaTime c
     = set_Position
         (glm.add (Position c)
                  (glm.scale (Front c) (MovementSpeed c * deltaTime))) c
  /\ ProcessKeyboard BACKWARD deltaTime c
     = set_Position
         (glm.sub (Position c)
                  (glm.scale (Front c) (MovementSpeed c * deltaTime))) c.
Proof.
  assert (H : ProcessKeyboard BACKWARD deltaTime
                (ProcessKeyboard FORWARD deltaTime c) = c).
  { destruct c as [p f u r w yw pt ms sens zm]. unfold ProcessKeyboard.
    cbn. unfold set_Position. cbn. f_equal. apply vec3_eq; cbn; ring. }
  split; [exact H |]. split; [rewrite H; reflexivity |].
  split; reflexivity.
Qed.

(** * Further properties of the code *)

(** ** More vector algebra *)

(** The triple product expansion. *)
Lemma cross_cross (a b c : vec3) :
  glm.cross a (glm.cross b c)
  = glm.sub (glm.scale b (glm.dot a c)) (glm.scale c (glm.dot a b)).
Proof. apply vec3_eq; unfold glm.cross, glm.sub, glm.scale, glm.dot; cbn; ring. Qed.

Lemma cross_anticomm (a b : vec3) :
  glm.cross a b = glm.scale (glm.cross b a) (-1).
Proof. apply vec3_eq; unfold glm.cross, glm.scale; cbn; ring. Qed.

(** The scalar triple product is invariant under rotation of its operands. *)
Lemma dot_cross_rotate (a b c : vec3) :
  glm.dot (glm.cross a b) c = glm.dot a (glm.cross b c).
Proof. unfold glm.dot, glm.cross. cbn. ring. Qed.

Lemma length_nonzero_pos (v : vec3) : v <> glm.zero -> 0 < glm.length v.
Proof.
  intros Hv. unfold glm.length. apply sqrt_lt_R0.
  destruct (dot_self_nonneg v) as [H | H]; [exact H |].
  exfalso. apply Hv, dot_self_zero. symmetry. exact H.
Qed.

(** ** What the recomputed basis looks like *)

Lemma current_orthonormal (c : Camera) :
  basis_current c -> regular c -> orthonormal (Front c) (Right c) (Up c).
Proof.
  intros (Hf & Hr & Hu) Hreg.
  generalize (updateCameraVectors_orthonormal c Hreg).
  simpl. rewrite <- Hf, <- Hr, <- Hu. trivial.
Qed.

(** The facts about a current basis that the proofs below start from. *)
Lemma current_basis_facts (c : Camera) :
  basis_current c -> regular c ->
  Front c = front_of (Yaw c) (Pitch c)
  /\ Right c = glm.normalize (glm.cross (Front c) (WorldUp c))
  /\ Up c = glm.cross (Right c) (Front c)
  /\ glm.dot (Front c) (Front c) = 1
  /\ glm.dot (Right c) (Right c) = 1
  /\ glm.dot (Front c) (Right c) = 0.
Proof.
  intros Hcur Hreg.
  destruct (current_orthonormal Hcur Hreg) as [Hfu Hru _ Hfr _ _].
  destruct Hcur as (Hf & Hr & Hu).
  apply unit_length_dot in Hfu. apply unit_length_dot in Hru.
  unfold perpendicular in Hfr.
  assert (Hrf : glm.dot (Right c) (Front c) = 0)
    by (rewrite dot_comm; exact Hfr).
  repeat split; try assumption.
  - rewrite Hf. apply normalize_of_unit, front_of_dot.
  - rewrite Hu at 1.
    apply normalize_of_unit, cross_of_orthonormal_pair; assumption.
Qed.

Lemma current_fixed (c : Camera) :
  basis_current c -> updateCameraVectors c = c.
Proof.
  intros (Hf & Hr & Hu).
  destruct c as [p f u r w yw pt ms sens zm]. cbn in *.
  unfold updateCameraVectors, set_Up, set_Right, set_Front. cbn.
  rewrite <- Hf, <- Hr, <- Hu. reflexivity.
Qed.

(** X1.  An object observed after a constructor or an operation is a fixed
    point of [updateCameraVectors]: its [Front], [Right] and [Up] are the
    ones its present [Yaw], [Pitch] and [WorldUp] give, never stale ones. *)
Theorem basis_never_stale (c : Camera) :
  after_call c -> updateCameraVectors c = c.
Proof. intros Hc. apply current_fixed, after_call_current, Hc. Qed.

Lemma basis_never_stale_witness :
  after_call (ProcessKeyboard LEFT 2 (ProcessMouseMovement 10 20 true Camera_default))
  /\ updateCameraVectors
       (ProcessKeyboard LEFT 2 (ProcessMouseMovement 10 20 true Camera_default))
     = ProcessKeyboard LEFT 2 (ProcessMouseMovement 10 20 true Camera_default).
Proof.
  assert (H : after_call (ProcessKeyboard LEFT 2
                            (ProcessMouseMovement 10 20 true Camera_default))).
  { apply (after_other (CallKeyboard LEFT 2)); [reflexivity |].
    apply (after_recomputing (CallMouseMovement 10 20 true)). reflexivity. }
  split; [exact H |]. apply (basis_never_stale H).
Defined.

(** X2.  The basis of a regular object observed after a call is
    right-handed with [-Front] as third vector: [Up] is [Right x Front],
    [Right] is [Front x Up] and [Front] is [Up x Right]. *)
Theorem basis_handedness (c : Camera) :
  after_call c -> regular c ->
  Up c = glm.cross (Right c) (Front c)
  /\ Right c = glm.cross (Front c) (Up c)
  /\ Front c = glm.cross (Up c) (Right c).
Proof.
  intros Hc Hreg.
  destruct (current_basis_facts (after_call_current Hc) Hreg)
    as (_ & _ & Hu & Hff & Hrr & Hfr).
  assert (Hrf : glm.dot (Right c) (Front c) = 0)
    by (rewrite dot_comm; exact Hfr).
  split; [exact Hu |]. split.
  - rewrite Hu, cross_cross, Hff, Hfr.
    apply vec3_eq; unfold glm.sub, glm.scale; cbn; ring.
  - rewrite Hu, (cross_anticomm (glm.cross (Right c) (Front c)) (Right c)).
    rewrite cross_cross, Hrf, Hrr.
    apply vec3_eq; unfold glm.sub, glm.scale; cbn; ring.
Qed.

Lemma basis_handedness_witness :
  after_call Camera_default /\ regular Camera_default
  /\ Up Camera_default
     = glm.cross (Right Camera_default) (Front Camera_default)
  /\ Right Camera_default
     = glm.cross (Front Camera_default) (Up Camera_default)
  /\ Front Camera_default
     = glm.cross (Up Camera_default) (Right Camera_default).
Proof.
  split; [apply after_new |]. split; [exact default_not_parallel |].
  apply (@basis_handedness Camera_default).
  - apply after_new.
  - exact default_not_parallel.
Defined.

(** X3.  The camera never rolls and never hangs upside down: for a regular
    object observed after a call, [Right] is perpendicular to [WorldUp] and
    [Up] has a positive component along [WorldUp], equal to the length of
    [Front x WorldUp]. *)
Theorem basis_upright (c : Camera) :
  after_call c -> regular c ->
  glm.dot (Right c) (WorldUp c) = 0
  /\ glm.dot (Up c) (WorldUp c)
     = glm.length (glm.cross (Front c) (WorldUp c))
  /\ 0 < glm.dot (Up c) (WorldUp c).
Proof.
  intros Hc Hreg.
  destruct (current_basis_facts (after_call_current Hc) Hreg)
    as (Hf & Hr & Hu & _).
  assert (Hnz : glm.cross (Front c) (WorldUp c) <> glm.zero)
    by (rewrite Hf; exact Hreg).
  assert (Hpos := length_nonzero_pos Hnz).
  set (n := glm.cross (Front c) (WorldUp c)) in *.
  assert (Heq : glm.dot (Up c) (WorldUp c) = glm.length n).
  { rewrite Hu, dot_cross_rotate. fold n. rewrite Hr. fold n.
    unfold glm.normalize. rewrite dot_scale_l.
    unfold glm.length in *.
    rewrite <- (sqrt_sqrt (glm.dot n n)) at 2 by apply dot_self_nonneg.
    field. lra. }
  split; [| split].
  - rewrite Hr. fold n. unfold glm.normalize. rewrite dot_scale_l.
    unfold n. rewrite dot_cross_right. ring.
  - exact Heq.
  - rewrite Heq. exact Hpos.
Qed.

Lemma basis_upright_witness :
  after_call Camera_default /\ regular Camera_default
  /\ 0 < glm.dot (Up Camera_default) (WorldUp Camera_default).
Proof.
  split; [apply after_new |]. split; [exact default_not_parallel |].
  apply (@basis_upright Camera_default).
  - apply after_new.
  - exact default_not_parallel.
Defined.

(** ** More on keyboard movement *)

Lemma set_Position_same (c : Camera) : set_Position (Position c) c = c.
Proof. destruct c; reflexivity. Qed.

Lemma set_Position_twice (p q : vec3) (c : Camera) :
  set_Position q (set_Position p c) = set_Position q c.
Proof. reflexivity. Qed.

Lemma displacement_set_Position (direction : Camera_Movement) (deltaTime : R)
    (p : vec3) (c : Camera) :
  displacement direction deltaTime (set_Position p c)
  = displacement direction deltaTime c.
Proof. destruct direction; reflexivity. Qed.

(** A keyboard step adds its displacement to the position and does nothing
    else. *)
Lemma ProcessKeyboard_displacement (direction : Camera_Movement)
    (deltaTime : R) (c : Camera) :
  ProcessKeyboard direction deltaTime c
  = set_Position (glm.add (Position c) (displacement direction deltaTime c)) c.
Proof.
  destruct direction.
  - reflexivity.
  - change (ProcessKeyboard BACKWARD deltaTime c)
      with (set_Position
              (glm.sub (Position c)
                 (glm.scale (Front c) (MovementSpeed c * deltaTime))) c).
    f_equal. apply vec3_eq; cbn; ring.
  - change (ProcessKeyboard LEFT deltaTime c)
      with (set_Position
              (glm.sub (Position c)
                 (glm.scale (Right c) (MovementSpeed c * deltaTime))) c).
    f_equal. apply vec3_eq; cbn; ring.
  - reflexivity.
Qed.

(** Two keyboard steps in a row, as one assignment to the position. *)
Lemma ProcessKeyboard_two_steps (d1 d2 : Camera_Movement) (t1 t2 : R)
    (c : Camera) :
  ProcessKeyboard d2 t2 (ProcessKeyboard d1 t1 c)
  = set_Position
      (glm.add (glm.add (Position c) (displacement d1 t1 c))
               (displacement d2 t2 c)) c.
Proof.
  rewrite (ProcessKeyboard_displacement d1), (ProcessKeyboard_displacement d2).
  rewrite displacement_set_Position. reflexivity.
Qed.

(** Compare two positions componentwise. *)
Ltac positions_equal :=
  f_equal; apply vec3_eq; cbn; ring.

(** X4.  A keyboard step is undone by the step in the opposite direction
    with the same elapsed time, for each of the four directions, and a step
    with a negated elapsed time is the step in the opposite direction. *)
Theorem keyboard_opposite_undoes (direction : Camera_Movement)
    (deltaTime : R) (c : Camera) :
  ProcessKeyboard (opposite direction) deltaTime
    (ProcessKeyboard direction deltaTime c) = c
  /\ ProcessKeyboard direction (- deltaTime) c
     = ProcessKeyboard (opposite direction) deltaTime c.
Proof.
  split.
  - rewrite ProcessKeyboard_two_steps.
    transitivity (set_Position (Position c) c); [| apply set_Position_same].
    destruct direction; positions_equal.
  - rewrite !ProcessKeyboard_displacement.
    destruct direction; positions_equal.
Qed.


(** X6.  Keyboard steps commute: two steps, in any two directions and with
    any two elapsed times, leave the same object in either order. *)
Theorem keyboard_steps_commute (d1 d2 : Camera_Movement) (t1 t2 : R)
    (c : Camera) :
  ProcessKeyboard d2 t2 (ProcessKeyboard d1 t1 c)
  = ProcessKeyboard d1 t1 (ProcessKeyboard d2 t2 c).
Proof.
  rewrite !ProcessKeyboard_two_steps.
  f_equal. apply vec3_eq; unfold glm.add; cbn [glm.x glm.y glm.z]; ring.
Qed.

Lemma distance_as_length (a b : vec3) :
  distance_from_camera_to_target a b = glm.length (glm.sub a b).
Proof. reflexivity. Qed.

Lemma sub_add_cancel (p d : vec3) : glm.sub (glm.add p d) p = d.
Proof. apply vec3_eq; cbn; ring. Qed.

Lemma length_scale_unit (a : vec3) (v : R) :
  glm.dot a a = 1 -> glm.length (glm.scale a v) = Rabs v.
Proof.
  intros Ha. unfold glm.length. rewrite dot_scale_l, dot_scale_r, Ha.
  rewrite <- sqrt_Rsqr_abs. f_equal. unfold Rsqr. ring.
Qed.

Lemma length_diagonal (a b : vec3) (v sa sb : R) :
  glm.dot a a = 1 -> glm.dot b b = 1 -> glm.dot a b = 0 ->
  sa * sa = 1 -> sb * sb = 1 ->
  glm.length (glm.add (glm.scale a (sa * v)) (glm.scale b (sb * v)))
  = sqrt 2 * Rabs v.
Proof.
  intros Ha Hb Hab Hsa Hsb.
  rewrite <- sqrt_Rsqr_abs, <- sqrt_mult by (try lra; apply Rle_0_sqr).
  unfold glm.length. f_equal.
  unfold glm.dot in *. unfold glm.add, glm.scale, Rsqr.
  cbn [glm.x glm.y glm.z].
  transitivity
    (v * v * (sa * sa * (glm.x a * glm.x a + glm.y a * glm.y a
                         + glm.z a * glm.z a)
              + sb * sb * (glm.x b * glm.x b + glm.y b * glm.y b
                           + glm.z b * glm.z b)
              + 2 * (sa * sb) * (glm.x a * glm.x b + glm.y a * glm.y b
                                 + glm.z a * glm.z b))); [ring |].
  rewrite Ha, Hb, Hab, Hsa, Hsb. ring.
Qed.

(** X7.  From a regular object observed after a call, a keyboard step moves
    the position by the distance |MovementSpeed * deltaTime|, the same in
    each of the four directions. *)
Theorem keyboard_step_length (direction : Camera_Movement) (deltaTime : R)
    (c : Camera) :
  after_call c -> regular c ->
  distance_from_camera_to_target
    (Position (ProcessKeyboard direction deltaTime c)) (Position c)
  = Rabs (MovementSpeed c * deltaTime).
Proof.
  intros Hc Hreg.
  destruct (current_basis_facts (after_call_current Hc) Hreg)
    as (_ & _ & _ & Hff & Hrr & _).
  rewrite distance_as_length, ProcessKeyboard_displacement.
  change (Position (set_Position ?p c)) with p.
  rewrite sub_add_cancel.
  destruct direction; unfold displacement; cbv zeta.
  - apply length_scale_unit, Hff.
  - rewrite (length_scale_unit _ Hff). apply Rabs_Ropp.
  - rewrite (length_scale_unit _ Hrr). apply Rabs_Ropp.
  - apply length_scale_unit, Hrr.
Qed.

Lemma keyboard_step_length_witness :
  after_call Camera_default /\ regular Camera_default
  /\ distance_from_camera_to_target
       (Position (ProcessKeyboard LEFT 2 Camera_default))
       (Position Camera_default)
     = Rabs (MovementSpeed Camera_default * 2).
Proof.
  split; [apply after_new |]. split; [exact default_not_parallel |].
  apply (@keyboard_step_length LEFT 2 Camera_default).
  - apply after_new.
  - exact default_not_parallel.
Defined.

(** X8.  Diagonal movement is faster: from a regular object observed after
    a call, a step forward or backward followed by a step left or right
    with the same elapsed time moves the position by
    sqrt 2 * |MovementSpeed * deltaTime|. *)
Theorem keyboard_diagonal_length (d1 d2 : Camera_Movement) (deltaTime : R)
    (c : Camera) :
  after_call c -> regular c ->
  d1 = FORWARD \/ d1 = BACKWARD -> d2 = LEFT \/ d2 = RIGHT ->
  distance_from_camera_to_target
    (Position (ProcessKeyboard d2 deltaTime (ProcessKeyboard d1 deltaTime c)))
    (Position c)
  = sqrt 2 * Rabs (MovementSpeed c * deltaTime).
Proof.
  intros Hc Hreg H1 H2.
  destruct (current_basis_facts (after_call_current Hc) Hreg)
    as (_ & _ & _ & Hff & Hrr & Hfr).
  rewrite distance_as_length, ProcessKeyboard_two_steps.
  change (Position (set_Position ?p c)) with p.
  set (v := MovementSpeed c * deltaTime).
  assert (Hdiag : forall sa sb : R, sa * sa = 1 -> sb * sb = 1 ->
            glm.length (glm.add (glm.scale (Front c) (sa * v))
                                (glm.scale (Right c) (sb * v)))
            = sqrt 2 * Rabs v)
    by (intros; apply length_diagonal; assumption).
  destruct H1 as [-> | ->]; destruct H2 as [-> | ->];
    unfold displacement; cbv zeta; fold v.
  - rewrite <- (Hdiag 1 (-1)) by ring. f_equal.
    apply vec3_eq; cbn [glm.x glm.y glm.z glm.add glm.sub glm.scale]; ring.
  - rewrite <- (Hdiag 1 1) by ring. f_equal.
    apply vec3_eq; cbn [glm.x glm.y glm.z glm.add glm.sub glm.scale]; ring.
  - rewrite <- (Hdiag (-1) (-1)) by ring. f_equal.
    apply vec3_eq; cbn [glm.x glm.y glm.z glm.add glm.sub glm.scale]; ring.
  - rewrite <- (Hdiag (-1) 1) by ring. f_equal.
    apply vec3_eq; cbn [glm.x glm.y glm.z glm.add glm.sub glm.scale]; ring.
Qed.

Lemma keyboard_diagonal_length_witness :
  after_call Camera_default /\ regular Camera_default
  /\ distance_from_camera_to_target
       (Position (ProcessKeyboard RIGHT 2
                    (ProcessKeyboard FORWARD 2 Camera_default)))
       (Position Camera_default)
     = sqrt 2 * Rabs (MovementSpeed Camera_default * 2).
Proof.
  split; [apply after_new |]. split; [exact default_not_parallel |].
  apply (@keyboard_diagonal_length FORWARD RIGHT 2 Camera_default).
  - apply after_new.
  - exact default_not_parallel.
  - left. reflexivity.
  - right. reflexivity.
Defined.

(** ** More on mouse-look *)

(** The members a mouse-look call leaves alone, and the yaw it leaves. *)
Lemma ProcessMouseMovement_frame (xoffset yoffset : R) (constrainPitch : bool)
    (c : Camera) :
  let c' := ProcessMouseMovement xoffset yoffset constrainPitch c in
  Position c' = Position c /\ WorldUp c' = WorldUp c
  /\ Yaw c' = Yaw c + xoffset * MouseSensitivity c
  /\ MovementSpeed c' = MovementSpeed c
  /\ MouseSensitivity c' = MouseSensitivity c /\ Zoom c' = Zoom c.
Proof.
  unfold ProcessMouseMovement. destruct constrainPitch; cbv zeta.
  - repeat match goal with
           | |- context [if ?b then _ else _] => destruct b; cbn
           end; repeat split.
  - repeat split.
Qed.

Lemma cos_radians_pos (pitch : R) :
  -89 <= pitch <= 89 -> 0 < cos (glm.radians pitch).
Proof.
  intros H. unfold glm.radians. generalize PI_RGT_0. intros Hpi.
  apply cos_gt_0; nra.
Qed.

(** With a vertical world up vector, a pitch within the constraint keeps the
    front vector away from it. *)
Lemma vertical_regular (yaw pitch k : R) :
  -89 <= pitch <= 89 -> k <> 0 ->
  ~ parallel (front_of yaw pitch) (glm.mk_vec3 0 k 0).
Proof.
  intros Hp Hk Hpar. unfold parallel, glm.cross, glm.zero, front_of in Hpar.
  cbn in Hpar. injection Hpar as Hx _ Hz.
  generalize (cos_radians_pos Hp) (sin2_cos2_mult (glm.radians yaw)).
  generalize dependent (cos (glm.radians pitch)).
  generalize (sin (glm.radians yaw)) (cos (glm.radians yaw)).
  intros sy cy cp Hx Hz Hcp Hsc.
  assert (Hs : sy * cp = 0).
  { apply (Rmult_eq_reg_l k); [| exact Hk]. lra. }
  assert (Hc : cy * cp = 0).
  { apply (Rmult_eq_reg_l k); [| exact Hk]. lra. }
  apply Rmult_integral in Hs. apply Rmult_integral in Hc.
  destruct Hs as [Hs | Hs]; [| lra]. destruct Hc as [Hc | Hc]; [| lra].
  subst. lra.
Qed.

Lemma updateCameraVectors_angles_eq (c : Camera) (yaw1 yaw2 pitch1 pitch2 : R) :
  yaw1 = yaw2 -> pitch1 = pitch2 ->
  updateCameraVectors (set_Pitch pitch1 (set_Yaw yaw1 c))
  = updateCameraVectors (set_Pitch pitch2 (set_Yaw yaw2 c)).
Proof. intros -> ->. reflexivity. Qed.

(** X11.  Unconstrained mouse-look calls add up: two calls in a row leave the
    object that one call with the summed offsets leaves; and a call with
    both offsets 0 leaves an object observed after a call as it is. *)
Theorem unconstrained_looks_add (x1 y1 x2 y2 : R) (c : Camera) :
  ProcessMouseMovement x2 y2 false (ProcessMouseMovement x1 y1 false c)
  = ProcessMouseMovement (x1 + x2) (y1 + y2) false c
  /\ (after_call c -> ProcessMouseMovement 0 0 false c = c).
Proof.
  split.
  - unfold ProcessMouseMovement. cbv zeta.
    change (updateCameraVectors
              (set_Pitch (Pitch c + y1 * MouseSensitivity c
                          + y2 * MouseSensitivity c)
                 (set_Yaw (Yaw c + x1 * MouseSensitivity c
                           + x2 * MouseSensitivity c) c))
            = updateCameraVectors
                (set_Pitch (Pitch c + (y1 + y2) * MouseSensitivity c)
                   (set_Yaw (Yaw c + (x1 + x2) * MouseSensitivity c) c))).
    apply updateCameraVectors_angles_eq; ring.
  - intros Hc. rewrite <- (current_fixed (after_call_current Hc)) at 2.
    unfold ProcessMouseMovement. cbv zeta.
    transitivity (updateCameraVectors (set_Pitch (Pitch c) (set_Yaw (Yaw c) c))).
    + apply updateCameraVectors_angles_eq; cbn; ring.
    + destruct c; reflexivity.
Qed.

Lemma unconstrained_looks_add_witness :
  after_call Camera_default
  /\ ProcessMouseMovement 0 0 false Camera_default = Camera_default.
Proof.
  split; [apply after_new |].
  apply (proj2 (unconstrained_looks_add 1 2 3 4 Camera_default)).
  apply after_new.
Defined.

(** ** More on orbiting *)

Lemma move_camera_in_sphere_orbit_to (xoffset yoffset : R) (target : vec3)
    (c : Camera) :
  move_camera_in_sphere xoffset yoffset target c
  = orbit_to target (Yaw c - xoffset * (MouseSensitivity c * 0.1))
             (Pitch c - yoffset * (MouseSensitivity c * 0.1)) c.
Proof. reflexivity. Qed.








(** ** More on zooming *)

Lemma set_Zoom_same (c : Camera) : set_Zoom (Zoom c) c = c.
Proof. destruct c; reflexivity. Qed.

(** Within [1, 45] the guard of the decrement holds. *)
Lemma zoom_guard_true (c : Camera) :
  zoom_in_range c -> (Zoom c >=? 1) && (Zoom c <=? 45) = true.
Proof.
  unfold zoom_in_range. intros H. apply andb_true_intro.
  split; apply Rleb_true; lra.
Qed.

(** X15.  Scrolling is monotone: from one object a larger delta never leaves
    a larger zoom, and with one delta an object with a larger zoom never
    ends with a smaller one. *)
Theorem scroll_monotone (y1 y2 : R) (c1 c2 : Camera) :
  (y1 <= y2 ->
   Zoom (ProcessMouseScroll y2 c1) <= Zoom (ProcessMouseScroll y1 c1))
  /\ (Zoom c1 <= Zoom c2 ->
      Zoom (ProcessMouseScroll y1 c1) <= Zoom (ProcessMouseScroll y1 c2)).
Proof.
  split; intros H; rewrite !ProcessMouseScroll_Zoom; unfold clamp;
    compare_all.
Qed.

Lemma scroll_monotone_witness :
  (3 <= 5
   /\ Zoom (ProcessMouseScroll 5 Camera_default)
      <= Zoom (ProcessMouseScroll 3 Camera_default))
  /\ (Zoom (set_Zoom 20 Camera_default) <= Zoom Camera_default
      /\ Zoom (ProcessMouseScroll 3 (set_Zoom 20 Camera_default))
         <= Zoom (ProcessMouseScroll 3 Camera_default)).
Proof.
  assert (H35 : 3 <= 5) by lra.
  assert (Hz : Zoom (set_Zoom 20 Camera_default) <= Zoom Camera_default)
    by (cbn; unfold ZOOM; lra).
  split; (split; [assumption |]).
  - apply (proj1 (scroll_monotone 3 5 Camera_default Camera_default) H35).
  - apply (proj2 (scroll_monotone 3 5 (set_Zoom 20 Camera_default)
                    Camera_default) Hz).
Defined.

(** X16.  A scroll by 0 leaves an object whose zoom is in [1, 45] as it is;
    after any scroll call, a scroll by 0 changes nothing. *)
Theorem scroll_zero (yoffset : R) (c : Camera) :
  (zoom_in_range c -> ProcessMouseScroll 0 c = c)
  /\ ProcessMouseScroll 0 (ProcessMouseScroll yoffset c)
     = ProcessMouseScroll yoffset c.
Proof.
  assert (H0 : forall s : Camera, zoom_in_range s -> ProcessMouseScroll 0 s = s).
  { intros s Hs. rewrite ProcessMouseScroll_frame, ProcessMouseScroll_Zoom.
    rewrite (zoom_guard_true Hs), clamp_id
      by (unfold zoom_in_range in Hs; lra).
    replace (Zoom s - 0) with (Zoom s) by ring. apply set_Zoom_same. }
  split; [apply H0 | apply H0, ProcessMouseScroll_in_range].
Qed.

Lemma scroll_zero_witness :
  zoom_in_range Camera_default
  /\ ProcessMouseScroll 0 Camera_default = Camera_default.
Proof.
  assert (Hc : zoom_in_range Camera_default)
    by (unfold zoom_in_range; cbn; unfold ZOOM; lra).
  split; [exact Hc |].
  apply (proj1 (scroll_zero 0 Camera_default) Hc).
Defined.

(** X17.  Scroll calls add up as long as the first does not saturate: from
    a zoom in [1, 45], when the zoom decremented by the first delta is still
    in [1, 45], two calls leave the object that one call with the summed
    deltas leaves. *)
Theorem scrolls_add (y1 y2 : R) (c : Camera) :
  zoom_in_range c -> 1 <= Zoom c - y1 <= 45 ->
  ProcessMouseScroll y2 (ProcessMouseScroll y1 c)
  = ProcessMouseScroll (y1 + y2) c.
Proof.
  intros Hc H1.
  assert (Hz1 : Zoom (ProcessMouseScroll y1 c) = Zoom c - y1).
  { rewrite ProcessMouseScroll_Zoom, (zoom_guard_true Hc).
    apply clamp_id. exact H1. }
  assert (Hc1 := ProcessMouseScroll_in_range y1 c).
  assert (Hf1 := ProcessMouseScroll_frame y1 c).
  remember (ProcessMouseScroll y1 c) as c1 eqn:E1. clear E1.
  rewrite (ProcessMouseScroll_frame y2 c1), (ProcessMouseScroll_Zoom y2 c1).
  rewrite (zoom_guard_true Hc1), Hz1.
  rewrite (ProcessMouseScroll_frame (y1 + y2) c),
    (ProcessMouseScroll_Zoom (y1 + y2) c), (zoom_guard_true Hc).
  replace (Zoom c - (y1 + y2)) with (Zoom c - y1 - y2) by ring.
  rewrite Hf1. reflexivity.
Qed.

Lemma scrolls_add_witness :
  zoom_in_range Camera_default /\ 1 <= Zoom Camera_default - 10 <= 45
  /\ ProcessMouseScroll 50 (ProcessMouseScroll 10 Camera_default)
     = ProcessMouseScroll (10 + 50) Camera_default.
Proof.
  assert (Hc : zoom_in_range Camera_default)
    by (unfold zoom_in_range; cbn; unfold ZOOM; lra).
  assert (H1 : 1 <= Zoom Camera_default - 10 <= 45)
    by (cbn; unfold ZOOM; lra).
  split; [exact Hc |]. split; [exact H1 |].
  apply (@scrolls_add 10 50 Camera_default Hc H1).
Defined.

(** ** The distance function *)



(** ** The two conversions from degrees to radians *)

(** The header's [PI] is below the number pi. *)
Lemma Macro_PI_below_PI : Macro.PI < PI.
Proof.
  unfold Macro.PI.
  generalize (proj1 (PI_2_3_7_ineq 3)).
  unfold PI_2_3_7_tg, tg_alt, Ratan_seq. simpl sum_f_R0. simpl.
  intros H. lra.
Qed.

(** How the two conversions compare. *)
Lemma degree_to_radian_bounds (degree : R) :
  (0 < degree -> 0 < degree_to_radian degree < glm.radians degree)
  /\ (degree < 0 -> glm.radians degree < degree_to_radian degree < 0)
  /\ (degree_to_radian degree = glm.radians degree <-> degree = 0).
Proof.
  generalize Macro_PI_below_PI.
  unfold degree_to_radian, glm.radians.
  assert (H0 : 0 < Macro.PI) by (unfold Macro.PI; lra).
  generalize dependent Macro.PI. intros m Hm Hlt.
  split; [| split].
  - intros Hd. split; nra.
  - intros Hd. split; nra.
  - split.
    + intros H.
      destruct (Rtotal_order degree 0) as [Hd | [Hd | Hd]]; [| exact Hd |];
        exfalso; nra.
    + intros ->. lra.
Qed.



(** X20.  Because of the two conversions, the camera does not look exactly
    at the target after an orbit call: when the pitch the call leaves is in
    [-90, 90] and not 0 and the camera is not on the target, the point
    straight ahead of the camera at the distance of the target is not the
    target. *)
Theorem orbit_front_misses_target (xoffset yoffset : R) (target : vec3)
    (c : Camera) :
  let c' := move_camera_in_sphere xoffset yoffset target c in
  let distance := distance_from_camera_to_target (Position c) target in
  0 < distance -> Pitch c' <> 0 -> -90 <= Pitch c' <= 90 ->
  glm.add (Position c') (glm.scale (Front c') distance) <> target.
Proof.
  cbv zeta. intros Hd Hp0 Hp Heq.
  rewrite move_camera_in_sphere_Position in Heq.
  rewrite move_camera_in_sphere_orbit_to in Heq. unfold orbit_to in Heq.
  rewrite updateCameraVectors_Front in Heq.
  rewrite move_camera_in_sphere_orbit_to in Hp0, Hp.
  change (Pitch (orbit_to ?t ?y ?p ?s)) with p in *.
  change (Yaw (orbit_to ?t ?y ?p ?s)) with y in *.
  cbn [Yaw Pitch set_Position set_Pitch set_Yaw] in Heq.
  change (Pitch (updateCameraVectors (set_Position ?p (set_Pitch ?q ?s))))
    with q in Heq.
  set (pitch := Pitch c - yoffset * (MouseSensitivity c * 0.1)) in *.
  set (d := distance_from_camera_to_target (Position c) target) in *.
  apply (f_equal glm.y) in Heq.
  unfold on_sphere, front_of, glm.add, glm.scale in Heq.
  cbn [glm.x glm.y glm.z] in Heq.
  assert (Hsin : sin (glm.radians pitch) = sin (degree_to_radian pitch)) by nra.
  generalize PI_RGT_0. intros Hpi.
  destruct (degree_to_radian_bounds pitch) as (Hpos & Hneg & _).
  destruct (Rtotal_order pitch 0) as [Hlt | [H0 | Hgt]]; [| exact (Hp0 H0) |].
  - destruct (Hneg Hlt) as (Ha & Hb).
    assert (Hr : - (PI / 2) <= glm.radians pitch)
      by (unfold glm.radians; nra).
    generalize (sin_increasing_1 (glm.radians pitch) (degree_to_radian pitch)).
    intros Hinc. lra.
  - destruct (Hpos Hgt) as (Ha & Hb).
    assert (Hr : glm.radians pitch <= PI / 2)
      by (unfold glm.radians; nra).
    generalize (sin_increasing_1 (degree_to_radian pitch) (glm.radians pitch)).
    intros Hinc. lra.
Qed.

Lemma orbit_front_misses_target_witness :
  let c' := move_camera_in_sphere 0 (-1000) (glm.mk_vec3 1 0 0)
              Camera_default in
  0 < distance_from_camera_to_target (Position Camera_default)
        (glm.mk_vec3 1 0 0)
  /\ Pitch c' <> 0 /\ -90 <= Pitch c' <= 90
  /\ glm.add (Position c')
       (glm.scale (Front c')
          (distance_from_camera_to_target (Position Camera_default)
             (glm.mk_vec3 1 0 0)))
     <> glm.mk_vec3 1 0 0.
Proof.
  cbv zeta.
  assert (Hd : 0 < distance_from_camera_to_target (Position Camera_default)
                     (glm.mk_vec3 1 0 0)).
  { unfold distance_from_camera_to_target. cbn.
    apply sqrt_lt_R0. lra. }
  assert (Hpitch : Pitch (move_camera_in_sphere 0 (-1000) (glm.mk_vec3 1 0 0)
                            Camera_default) = 10).
  { rewrite (proj2 (move_camera_in_sphere_angles 0 (-1000) (glm.mk_vec3 1 0 0)
                      Camera_default)).
    cbn. unfold PITCH, SENSITIVITY. lra. }
  assert (Hp0 : Pitch (move_camera_in_sphere 0 (-1000) (glm.mk_vec3 1 0 0)
                         Camera_default) <> 0) by (rewrite Hpitch; lra).
  assert (Hp : -90 <= Pitch (move_camera_in_sphere 0 (-1000)
                               (glm.mk_vec3 1 0 0) Camera_default) <= 90)
    by (rewrite Hpitch; lra).
  split; [exact Hd |]. split; [exact Hp0 |]. split; [exact Hp |].
  apply (@orbit_front_misses_target 0 (-1000) (glm.mk_vec3 1 0 0)
           Camera_default Hd Hp0 Hp).
Defined.

(** ** What the view matrix does *)

Lemma current_right_front_up (c : Camera) :
  basis_current c -> regular c -> Right c = glm.cross (Front c) (Up c).
Proof.
  intros Hcur Hreg.
  destruct (current_basis_facts Hcur Hreg) as (_ & _ & Hu & Hff & _ & Hfr).
  rewrite Hu, cross_cross, Hff, Hfr.
  apply vec3_eq; unfold glm.sub, glm.scale; cbn; ring.
Qed.

(** The view matrix of a regular object with a current basis: the rows of
    its rotation are [Right], [Up] and [-Front]. *)
Lemma GetViewMatrix_rows (c : Camera) :
  basis_current c -> regular c ->
  GetViewMatrix c
  = glm4.mk_mat4
      (glm4.mk_vec4 (glm.x (Right c)) (glm.x (Up c)) (- glm.x (Front c)) 0)
      (glm4.mk_vec4 (glm.y (Right c)) (glm.y (Up c)) (- glm.y (Front c)) 0)
      (glm4.mk_vec4 (glm.z (Right c)) (glm.z (Up c)) (- glm.z (Front c)) 0)
      (glm4.mk_vec4 (- glm.dot (Right c) (Position c))
                    (- glm.dot (Up c) (Position c))
                    (glm.dot (Front c) (Position c)) 1).
Proof.
  intros Hcur Hreg.
  assert (HR := current_right_front_up Hcur Hreg).
  destruct (current_basis_facts Hcur Hreg) as (_ & _ & Hu & Hff & Hrr & _).
  unfold GetViewMatrix, glm4.lookAt. cbv zeta.
  rewrite sub_add_cancel, (normalize_of_unit Hff), <- HR,
    (normalize_of_unit Hrr), <- Hu.
  reflexivity.
Qed.

(** The square of a scalar triple product is a Gram determinant. *)
Lemma gram_identity (a b v : vec3) :
  glm.dot (glm.cross a b) v * glm.dot (glm.cross a b) v
  = glm.dot a a * glm.dot b b * glm.dot v v
    + 2 * glm.dot a b * glm.dot b v * glm.dot a v
    - glm.dot a a * (glm.dot b v * glm.dot b v)
    - glm.dot b b * (glm.dot a v * glm.dot a v)
    - glm.dot v v * (glm.dot a b * glm.dot a b).
Proof. unfold glm.dot, glm.cross. cbn. ring. Qed.

(** X21.  For a regular object observed after a call, the view matrix gives
    camera coordinates: a point goes to its components along [Right], [Up]
    and [-Front] measured from [Position]; so [Position] goes to the origin
    and the directions [Right], [Up] and [Front] go to the x axis, the y
    axis and the negative z axis. *)
Theorem view_matrix_camera_coordinates (c : Camera) :
  after_call c -> regular c ->
  (forall p : vec3,
      glm4.mul (GetViewMatrix c) (glm4.point p)
      = glm4.mk_vec4 (glm.dot (Right c) (glm.sub p (Position c)))
                     (glm.dot (Up c) (glm.sub p (Position c)))
                     (- glm.dot (Front c) (glm.sub p (Position c))) 1)
  /\ glm4.mul (GetViewMatrix c) (glm4.point (Position c))
     = glm4.mk_vec4 0 0 0 1
  /\ glm4.mul (GetViewMatrix c) (glm4.direction (Right c))
     = glm4.mk_vec4 1 0 0 0
  /\ glm4.mul (GetViewMatrix c) (glm4.direction (Up c))
     = glm4.mk_vec4 0 1 0 0
  /\ glm4.mul (GetViewMatrix c) (glm4.direction (Front c))
     = glm4.mk_vec4 0 0 (-1) 0.
Proof.
  intros Hc Hreg.
  assert (Hcur := after_call_current Hc).
  destruct (current_orthonormal Hcur Hreg) as [Hfu Hru Huu Hfr Hfup Hrup].
  apply unit_length_dot in Hfu, Hru, Huu. unfold perpendicular in *.
  rewrite (GetViewMatrix_rows Hcur Hreg).
  unfold glm.dot in *.
  repeat split; intros; unfold glm4.mul, glm4.point, glm4.direction, glm.sub;
    cbn; f_equal; try ring; nra.
Qed.

Lemma view_matrix_camera_coordinates_witness :
  after_call Camera_default /\ regular Camera_default
  /\ glm4.mul (GetViewMatrix Camera_default)
       (glm4.point (Position Camera_default))
     = glm4.mk_vec4 0 0 0 1.
Proof.
  split; [apply after_new |]. split; [exact default_not_parallel |].
  apply (@view_matrix_camera_coordinates Camera_default).
  - apply after_new.
  - exact default_not_parallel.
Defined.

(** X22.  For a regular object observed after a call, the view matrix is a
    rigid motion: the images of two points are as far apart as the points
    are. *)
Theorem view_matrix_keeps_distances (c : Camera) (p q : vec3) :
  after_call c -> regular c ->
  glm.length (glm.sub (glm4.xyz (glm4.mul (GetViewMatrix c) (glm4.point p)))
                      (glm4.xyz (glm4.mul (GetViewMatrix c) (glm4.point q))))
  = glm.length (glm.sub p q).
Proof.
  intros Hc Hreg.
  assert (Hcur := after_call_current Hc).
  destruct (current_basis_facts Hcur Hreg) as (_ & _ & Hu & Hff & Hrr & Hfr).
  assert (Hrf : glm.dot (Right c) (Front c) = 0)
    by (rewrite dot_comm; exact Hfr).
  rewrite (GetViewMatrix_rows Hcur Hreg).
  unfold glm.length. f_equal.
  set (v := glm.sub p q).
  transitivity
    (glm.dot (Right c) v * glm.dot (Right c) v
     + glm.dot (glm.cross (Right c) (Front c)) v
       * glm.dot (glm.cross (Right c) (Front c)) v
     + glm.dot (Front c) v * glm.dot (Front c) v).
  - rewrite <- Hu. unfold v, glm.dot, glm.sub, glm4.xyz, glm4.mul, glm4.point.
    cbn. ring.
  - rewrite gram_identity, Hrr, Hff, Hrf. ring.
Qed.

Lemma view_matrix_keeps_distances_witness :
  after_call Camera_default /\ regular Camera_default
  /\ glm.length
       (glm.sub
          (glm4.xyz (glm4.mul (GetViewMatrix Camera_default)
                       (glm4.point (glm.mk_vec3 1 2 3))))
          (glm4.xyz (glm4.mul (GetViewMatrix Camera_default)
                       (glm4.point (glm.mk_vec3 4 5 6)))))
     = glm.length (glm.sub (glm.mk_vec3 1 2 3) (glm.mk_vec3 4 5 6)).
Proof.
  split; [apply after_new |]. split; [exact default_not_parallel |].
  apply (@view_matrix_keeps_distances Camera_default).
  - apply after_new.
  - exact default_not_parallel.
Defined.

(** ** What the operations leave alone *)

Lemma ProcessKeyboard_frame (direction : Camera_Movement) (deltaTime : R)
    (c : Camera) :
  ProcessKeyboard direction deltaTime c
  = set_Position (Position (ProcessKeyboard direction deltaTime c)) c.
Proof. rewrite ProcessKeyboard_displacement. reflexivity. Qed.

(** The members each operation leaves as they are. *)
Lemma perform_frame (k : Call) (c : Camera) :
  WorldUp (perform k c) = WorldUp c
  /\ MovementSpeed (perform k c) = MovementSpeed c
  /\ MouseSensitivity (perform k c) = MouseSensitivity c
  /\ match k with
     | CallMouseScroll _ => True
     | _ => Zoom (perform k c) = Zoom c
     end
  /\ match k with
     | CallMouseMovement _ _ _ | CallMouseScroll _ =>
         Position (perform k c) = Position c
     | _ => True
     end
  /\ match k with
     | CallKeyboard _ _ | CallMouseScroll _ =>
         Yaw (perform k c) = Yaw c /\ Pitch (perform k c) = Pitch c
     | _ => True
     end.
Proof.
  destruct k; cbn [perform].
  - rewrite ProcessKeyboard_frame. repeat split.
  - destruct (ProcessMouseMovement_frame xoffset yoffset constrainPitch c)
      as (Hp & Hw & _ & Hs & Hm & Hz).
    repeat split; assumption.
  - repeat split.
  - repeat split.
  - rewrite ProcessMouseScroll_frame. repeat split.
Qed.

(** X23.  No operation changes [WorldUp], [MovementSpeed] or
    [MouseSensitivity]; only [ProcessMouseScroll] changes [Zoom]; only
    [ProcessKeyboard] and the two orbit operations change [Position]; only
    [ProcessMouseMovement] and the two orbit operations change [Yaw] and
    [Pitch]. *)
Theorem operations_frame (k : Call) (c : Camera) :
  WorldUp (perform k c) = WorldUp c
  /\ MovementSpeed (perform k c) = MovementSpeed c
  /\ MouseSensitivity (perform k c) = MouseSensitivity c
  /\ match k with
     | CallMouseScroll _ => True
     | _ => Zoom (perform k c) = Zoom c
     end
  /\ match k with
     | CallMouseMovement _ _ _ | CallMouseScroll _ =>
         Position (perform k c) = Position c
     | _ => True
     end
  /\ match k with
     | CallKeyboard _ _ | CallMouseScroll _ =>
         Yaw (perform k c) = Yaw c /\ Pitch (perform k c) = Pitch c
     | _ => True
     end.
Proof. apply perform_frame. Qed.

(** * The code over floats with infinities and NaN *)

(** ** Zooming *)

(** Split a float into its four cases, reduce the float operations of the
    goal and decide the comparisons of reals that remain. *)
Ltac float_reduce :=
  cbn [Ieee.fneg Ieee.fadd Ieee.fsub Ieee.flt Ieee.fle Ieee.fgt Ieee.fge
       Ieee.clamp Ieee.in_interval Ieee.is_number andb
       Ieee.Zoom Ieee.set_Zoom Ieee.Pitch Ieee.set_Pitch Ieee.set_Yaw] in *.

Ltac float_cases a := destruct a as [? | | |]; float_reduce.

Ltac real_cases :=
  unfold Ieee.clamp, Ieee.fgt, Ieee.fge in *; float_reduce;
  repeat (unfold Rgtb, Rgeb, Rltb, Rleb in *; decide_comparison;
          float_reduce);
  try reflexivity; try discriminate; try lra; try tauto;
  try (f_equal; lra).

Lemma Ieee_set_Zoom_twice (a b : Ieee.float) (c : Ieee.Camera) :
  Ieee.set_Zoom a (Ieee.set_Zoom b c) = Ieee.set_Zoom a c.
Proof. reflexivity. Qed.

(** A scroll call writes [Zoom] and nothing else. *)
Lemma Ieee_ProcessMouseScroll_frame (yoffset : Ieee.float) (c : Ieee.Camera) :
  Ieee.ProcessMouseScroll yoffset c
  = Ieee.set_Zoom (Ieee.Zoom (Ieee.ProcessMouseScroll yoffset c)) c.
Proof.
  unfold Ieee.ProcessMouseScroll. cbv zeta.
  repeat match goal with
         | |- context [if ?b then _ else _] => destruct b; cbn
         end; try reflexivity; destruct c; reflexivity.
Qed.

(** The zoom that a scroll call leaves, by the position of the zoom before
    the call. *)
Lemma Ieee_ProcessMouseScroll_Zoom (yoffset : Ieee.float) (c : Ieee.Camera) :
  Ieee.Zoom (Ieee.ProcessMouseScroll yoffset c)
  = if Ieee.fge (Ieee.Zoom c) (Ieee.Num 1) && Ieee.fle (Ieee.Zoom c) (Ieee.Num 45)
    then Ieee.clamp (Ieee.fsub (Ieee.Zoom c) yoffset) 1 45
    else if Ieee.flt (Ieee.Zoom c) (Ieee.Num 1) then Ieee.Num 1
         else if Ieee.fgt (Ieee.Zoom c) (Ieee.Num 45) then Ieee.Num 45
              else Ieee.Zoom c.
Proof.
  destruct c as [p f u r w yw pt ms sens zm].
  unfold Ieee.ProcessMouseScroll. cbv zeta. float_reduce.
  float_cases zm; [| real_cases | real_cases | reflexivity].
  unfold Rgeb, Rleb.
  destruct (Rle_dec 1 r0) as [H1 | H1]; destruct (Rle_dec r0 45) as [H2 | H2];
    float_reduce; try real_cases.
  float_cases yoffset; real_cases.
Qed.

Lemma Ieee_scroll_in_range (yoffset : Ieee.float) (c : Ieee.Camera) :
  Ieee.Zoom c <> Ieee.NaN ->
  (Ieee.zoom_in_range c -> yoffset <> Ieee.NaN) ->
  Ieee.zoom_in_range (Ieee.ProcessMouseScroll yoffset c).
Proof.
  unfold Ieee.zoom_in_range. rewrite Ieee_ProcessMouseScroll_Zoom.
  intros Hz Hy.
  destruct (Ieee.Zoom c) as [z | | |]; [| real_cases | real_cases | tauto].
  float_reduce. unfold Ieee.fge, Ieee.fle, Rleb.
  destruct (Rle_dec 1 z) as [H1 | H1]; destruct (Rle_dec z 45) as [H2 | H2];
    cbn [andb]; try real_cases.
  assert (Hy' : yoffset <> Ieee.NaN) by (apply Hy; lra).
  destruct yoffset as [y | | |]; [| real_cases | real_cases | tauto].
  real_cases.
Qed.

Lemma Ieee_default_zoom : Ieee.Zoom Ieee.Camera_default = Ieee.Num 45.
Proof. reflexivity. Qed.

Lemma Ieee_default_zoom_in_range : Ieee.zoom_in_range Ieee.Camera_default.
Proof.
  unfold Ieee.zoom_in_range. rewrite Ieee_default_zoom.
  cbn [Ieee.in_interval]. lra.
Qed.

(** C4, as stated, fails: from the default zoom 45 a scroll call whose delta
    is NaN leaves the zoom NaN, which is not in [1, 45]. *)
Lemma scroll_by_NaN_leaves_NaN :
  Ieee.zoom_in_range Ieee.Camera_default
  /\ Ieee.Zoom (Ieee.ProcessMouseScroll Ieee.NaN Ieee.Camera_default)
     = Ieee.NaN
  /\ ~ Ieee.zoom_in_range
         (Ieee.ProcessMouseScroll Ieee.NaN Ieee.Camera_default).
Proof.
  assert (H : Ieee.Zoom (Ieee.ProcessMouseScroll Ieee.NaN Ieee.Camera_default)
              = Ieee.NaN).
  { rewrite Ieee_ProcessMouseScroll_Zoom, Ieee_default_zoom. real_cases. }
  split; [exact Ieee_default_zoom_in_range |]. split; [exact H |].
  unfold Ieee.zoom_in_range. rewrite H. cbn [Ieee.in_interval]. tauto.
Qed.

(** C4, amended.  From a zoom in [1, 45], the default 45 in particular, the
    zoom lies in [1, 45] after a [ProcessMouseScroll] call whose delta is
    not NaN, and after each call of any sequence of scroll calls whose
    deltas are not NaN (infinite deltas included); and
    [ProcessMouseScroll(50)] at zoom 45 leaves the zoom 1, not -5. *)
Theorem scroll_keeps_zoom_in_range (c : Ieee.Camera) :
  Ieee.zoom_in_range c ->
  (forall yoffset : Ieee.float,
      yoffset <> Ieee.NaN ->
      Ieee.zoom_in_range (Ieee.ProcessMouseScroll yoffset c))
  /\ (forall deltas : list Ieee.float,
        Forall (fun yoffset => yoffset <> Ieee.NaN) deltas ->
        Forall Ieee.zoom_in_range
               (Ieee.states_after Ieee.ProcessMouseScroll deltas c))
  /\ (Ieee.Zoom c = Ieee.Num 45 ->
      Ieee.Zoom (Ieee.ProcessMouseScroll (Ieee.Num 50) c) = Ieee.Num 1).
Proof.
  assert (Hnn : forall s : Ieee.Camera,
            Ieee.zoom_in_range s -> Ieee.Zoom s <> Ieee.NaN).
  { intros s. unfold Ieee.zoom_in_range.
    destruct (Ieee.Zoom s); cbn [Ieee.in_interval]; try tauto. discriminate. }
  intros Hc. split; [| split].
  - intros yoffset Hy. apply Ieee_scroll_in_range; [apply Hnn, Hc | tauto].
  - intros deltas. revert c Hc.
    induction deltas as [| yoffset rest IH]; intros c Hc Hall; cbn.
    + constructor.
    + inversion Hall as [| ? ? Hy Hrest]; subst.
      assert (Hc' : Ieee.zoom_in_range (Ieee.ProcessMouseScroll yoffset c))
        by (apply Ieee_scroll_in_range; [apply Hnn, Hc | tauto]).
      constructor; [exact Hc' | apply IH; assumption].
  - intros H45. rewrite Ieee_ProcessMouseScroll_Zoom, H45. real_cases.
Qed.

Lemma scroll_keeps_zoom_in_range_witness :
  Ieee.zoom_in_range Ieee.Camera_default
  /\ Ieee.Zoom (Ieee.ProcessMouseScroll (Ieee.Num 50) Ieee.Camera_default)
     = Ieee.Num 1
  /\ Forall Ieee.zoom_in_range
       (Ieee.states_after Ieee.ProcessMouseScroll
          [Ieee.Num 50; Ieee.NInf; Ieee.Num 3] Ieee.Camera_default).
Proof.
  split; [exact Ieee_default_zoom_in_range |].
  destruct (@scroll_keeps_zoom_in_range Ieee.Camera_default
              Ieee_default_zoom_in_range)
    as (_ & Hall & H50).
  split; [exact (H50 Ieee_default_zoom) |].
  apply Hall. repeat constructor; discriminate.
Defined.

(** Below 1 and above 45 the delta is discarded, whatever it is. *)
Lemma Ieee_scroll_below (yoffset : Ieee.float) (c : Ieee.Camera) :
  Ieee.flt (Ieee.Zoom c) (Ieee.Num 1) = true ->
  Ieee.ProcessMouseScroll yoffset c = Ieee.set_Zoom (Ieee.Num 1) c.
Proof.
  intros H. rewrite Ieee_ProcessMouseScroll_frame. f_equal.
  rewrite Ieee_ProcessMouseScroll_Zoom.
  destruct (Ieee.Zoom c) as [z | | |]; cbn [Ieee.flt] in H;
    try discriminate; [apply Rltb_true in H |]; real_cases.
Qed.

Lemma Ieee_scroll_above (yoffset : Ieee.float) (c : Ieee.Camera) :
  Ieee.fgt (Ieee.Zoom c) (Ieee.Num 45) = true ->
  Ieee.ProcessMouseScroll yoffset c = Ieee.set_Zoom (Ieee.Num 45) c.
Proof.
  intros H. rewrite Ieee_ProcessMouseScroll_frame. f_equal.
  rewrite Ieee_ProcessMouseScroll_Zoom. unfold Ieee.fgt in H.
  destruct (Ieee.Zoom c) as [z | | |]; cbn [Ieee.flt] in H;
    try discriminate; [apply Rltb_true in H |]; real_cases.
Qed.

Lemma Ieee_scroll_clamp (yoffset : Ieee.float) (c : Ieee.Camera) :
  Ieee.zoom_in_range c ->
  Ieee.Zoom (Ieee.ProcessMouseScroll yoffset c)
  = Ieee.clamp (Ieee.fsub (Ieee.Zoom c) yoffset) 1 45.
Proof.
  unfold Ieee.zoom_in_range. intros Hz. rewrite Ieee_ProcessMouseScroll_Zoom.
  destruct (Ieee.Zoom c) as [z | | |]; cbn [Ieee.in_interval] in Hz;
    try tauto.
  unfold Ieee.fge. cbn [Ieee.fle].
  replace (1 <=? z) with true by (symmetry; apply Rleb_true; lra).
  replace (z <=? 45) with true by (symmetry; apply Rleb_true; lra).
  reflexivity.
Qed.

(** C10, as stated, fails: a zoom that is NaN, which a client can write into
    the public member, is still NaN after a scroll call. *)
Lemma scroll_keeps_NaN_zoom :
  Ieee.Zoom (Ieee.ProcessMouseScroll (Ieee.Num 7)
               (Ieee.set_Zoom Ieee.NaN Ieee.Camera_default)) = Ieee.NaN
  /\ ~ Ieee.zoom_in_range
         (Ieee.ProcessMouseScroll (Ieee.Num 7)
            (Ieee.set_Zoom Ieee.NaN Ieee.Camera_default)).
Proof.
  assert (H : Ieee.Zoom (Ieee.ProcessMouseScroll (Ieee.Num 7)
                           (Ieee.set_Zoom Ieee.NaN Ieee.Camera_default))
              = Ieee.NaN).
  { rewrite Ieee_ProcessMouseScroll_Zoom. reflexivity. }
  split; [exact H |].
  unfold Ieee.zoom_in_range. rewrite H. cbn [Ieee.in_interval]. tauto.
Qed.

(** C10, amended.  When [ProcessMouseScroll] is called with a zoom below 1 or
    above 45, the infinities included, the delta is discarded, whatever it
    is, and the zoom becomes the bound it violated, nothing else changing.
    After a call the zoom lies in [1, 45] provided the zoom before the call
    is not NaN and, when that zoom lies in [1, 45], the delta is not NaN.  A
    zoom that is NaN stays NaN. *)
Theorem scroll_from_any_zoom (c : Ieee.Camera) (yoffset : Ieee.float) :
  (Ieee.flt (Ieee.Zoom c) (Ieee.Num 1) = true ->
   Ieee.ProcessMouseScroll yoffset c = Ieee.set_Zoom (Ieee.Num 1) c)
  /\ (Ieee.fgt (Ieee.Zoom c) (Ieee.Num 45) = true ->
      Ieee.ProcessMouseScroll yoffset c = Ieee.set_Zoom (Ieee.Num 45) c)
  /\ (Ieee.Zoom c <> Ieee.NaN ->
      (Ieee.zoom_in_range c -> yoffset <> Ieee.NaN) ->
      Ieee.zoom_in_range (Ieee.ProcessMouseScroll yoffset c))
  /\ (Ieee.Zoom c = Ieee.NaN ->
      Ieee.Zoom (Ieee.ProcessMouseScroll yoffset c) = Ieee.NaN).
Proof.
  split; [| split; [| split]].
  - apply Ieee_scroll_below.
  - apply Ieee_scroll_above.
  - apply Ieee_scroll_in_range.
  - intros H. rewrite Ieee_ProcessMouseScroll_Zoom, H. reflexivity.
Qed.

Lemma scroll_from_any_zoom_witness :
  (Ieee.flt (Ieee.Zoom (Ieee.set_Zoom Ieee.NInf Ieee.Camera_default))
            (Ieee.Num 1) = true
   /\ Ieee.ProcessMouseScroll Ieee.NaN
        (Ieee.set_Zoom Ieee.NInf Ieee.Camera_default)
      = Ieee.set_Zoom (Ieee.Num 1)
          (Ieee.set_Zoom Ieee.NInf Ieee.Camera_default))
  /\ (Ieee.fgt (Ieee.Zoom (Ieee.set_Zoom (Ieee.Num 50) Ieee.Camera_default))
               (Ieee.Num 45) = true
      /\ Ieee.ProcessMouseScroll (Ieee.Num 7)
           (Ieee.set_Zoom (Ieee.Num 50) Ieee.Camera_default)
         = Ieee.set_Zoom (Ieee.Num 45)
             (Ieee.set_Zoom (Ieee.Num 50) Ieee.Camera_default))
  /\ Ieee.zoom_in_range
       (Ieee.ProcessMouseScroll Ieee.PInf Ieee.Camera_default).
Proof.
  assert (Hlo : Ieee.flt (Ieee.Zoom (Ieee.set_Zoom Ieee.NInf
                                       Ieee.Camera_default))
                         (Ieee.Num 1) = true) by reflexivity.
  assert (Hhi : Ieee.fgt (Ieee.Zoom (Ieee.set_Zoom (Ieee.Num 50)
                                       Ieee.Camera_default))
                         (Ieee.Num 45) = true).
  { cbn [Ieee.Zoom Ieee.set_Zoom]. unfold Ieee.fgt. cbn [Ieee.flt].
    apply Rltb_true. lra. }
  split; [split; [exact Hlo |] | split; [split; [exact Hhi |] |]].
  - apply (proj1 (@scroll_from_any_zoom
                    (Ieee.set_Zoom Ieee.NInf Ieee.Camera_default) Ieee.NaN)
             Hlo).
  - apply (proj1 (proj2 (@scroll_from_any_zoom
                           (Ieee.set_Zoom (Ieee.Num 50) Ieee.Camera_default)
                           (Ieee.Num 7))) Hhi).
  - apply (proj1 (proj2 (proj2 (@scroll_from_any_zoom Ieee.Camera_default
                                  Ieee.PInf)))).
    + rewrite Ieee_default_zoom. discriminate.
    + intros _. discriminate.
Defined.

(** C8, amended.  For every starting zoom in [1, 45] and every scroll delta,
    [ProcessMouseScroll] leaves the zoom equal to the decremented zoom
    clamped to [1, 45]; when the zoom starts below 1 or above 45 the delta
    is not applied and the zoom is set to the bound it violated, nothing
    else changing.  Stated over the reals and then over the floats, where
    the delta may also be an infinity or NaN (a NaN delta leaves NaN, as
    clamping NaN does) and the zoom may be an infinity. *)
Theorem scroll_is_clamp_from_range (c : Camera) (yoffset : R)
    (c' : Ieee.Camera) (yoffset' : Ieee.float) :
  ((zoom_in_range c ->
    Zoom (ProcessMouseScroll yoffset c) = clamp (Zoom c - yoffset) 1 45)
   /\ (Zoom c < 1 -> ProcessMouseScroll yoffset c = set_Zoom 1 c)
   /\ (45 < Zoom c -> ProcessMouseScroll yoffset c = set_Zoom 45 c))
  /\ ((Ieee.zoom_in_range c' ->
       Ieee.Zoom (Ieee.ProcessMouseScroll yoffset' c')
       = Ieee.clamp (Ieee.fsub (Ieee.Zoom c') yoffset') 1 45)
      /\ (Ieee.flt (Ieee.Zoom c') (Ieee.Num 1) = true ->
          Ieee.ProcessMouseScroll yoffset' c'
          = Ieee.set_Zoom (Ieee.Num 1) c')
      /\ (Ieee.fgt (Ieee.Zoom c') (Ieee.Num 45) = true ->
          Ieee.ProcessMouseScroll yoffset' c'
          = Ieee.set_Zoom (Ieee.Num 45) c')).
Proof.
  split; [split; [| split] | split; [| split]].
  - unfold zoom_in_range. intros Hc. rewrite ProcessMouseScroll_Zoom.
    replace (Zoom c >=? 1) with true by (symmetry; apply Rleb_true; lra).
    replace (Zoom c <=? 45) with true by (symmetry; apply Rleb_true; lra).
    reflexivity.
  - intros H. rewrite ProcessMouseScroll_frame, ProcessMouseScroll_Zoom.
    replace (Zoom c >=? 1) with false by (symmetry; apply Rleb_false; lra).
    replace (Zoom c <=? 1) with true by (symmetry; apply Rleb_true; lra).
    reflexivity.
  - intros H. rewrite ProcessMouseScroll_frame, ProcessMouseScroll_Zoom.
    replace (Zoom c <=? 45) with false by (symmetry; apply Rleb_false; lra).
    replace (Zoom c <=? 1) with false by (symmetry; apply Rleb_false; lra).
    rewrite andb_false_r. reflexivity.
  - apply Ieee_scroll_clamp.
  - apply Ieee_scroll_below.
  - apply Ieee_scroll_above.
Qed.

Lemma scroll_is_clamp_from_range_witness :
  (zoom_in_range Camera_default
   /\ Zoom (ProcessMouseScroll 50 Camera_default)
      = clamp (Zoom Camera_default - 50) 1 45)
  /\ (Zoom (set_Zoom 0 Camera_default) < 1
      /\ ProcessMouseScroll 7 (set_Zoom 0 Camera_default)
         = set_Zoom 1 (set_Zoom 0 Camera_default))
  /\ (45 < Zoom (set_Zoom 50 Camera_default)
      /\ ProcessMouseScroll 7 (set_Zoom 50 Camera_default)
         = set_Zoom 45 (set_Zoom 50 Camera_default))
  /\ (Ieee.zoom_in_range Ieee.Camera_default
      /\ Ieee.Zoom (Ieee.ProcessMouseScroll Ieee.PInf Ieee.Camera_default)
         = Ieee.clamp (Ieee.fsub (Ieee.Zoom Ieee.Camera_default) Ieee.PInf)
                      1 45)
  /\ (Ieee.flt (Ieee.Zoom (Ieee.set_Zoom Ieee.NInf Ieee.Camera_default))
               (Ieee.Num 1) = true
      /\ Ieee.ProcessMouseScroll Ieee.NaN
           (Ieee.set_Zoom Ieee.NInf Ieee.Camera_default)
         = Ieee.set_Zoom (Ieee.Num 1)
             (Ieee.set_Zoom Ieee.NInf Ieee.Camera_default))
  /\ (Ieee.fgt (Ieee.Zoom (Ieee.set_Zoom Ieee.PInf Ieee.Camera_default))
               (Ieee.Num 45) = true
      /\ Ieee.ProcessMouseScroll (Ieee.Num 7)
           (Ieee.set_Zoom Ieee.PInf Ieee.Camera_default)
         = Ieee.set_Zoom (Ieee.Num 45)
             (Ieee.set_Zoom Ieee.PInf Ieee.Camera_default)).
Proof.
  assert (Hc : zoom_in_range Camera_default)
    by (unfold zoom_in_range; cbn; unfold ZOOM; lra).
  assert (Hlo : Zoom (set_Zoom 0 Camera_default) < 1) by (cbn; lra).
  assert (Hhi : 45 < Zoom (set_Zoom 50 Camera_default)) by (cbn; lra).
  assert (Hlo' : Ieee.flt (Ieee.Zoom (Ieee.set_Zoom Ieee.NInf
                                        Ieee.Camera_default))
                          (Ieee.Num 1) = true) by reflexivity.
  assert (Hhi' : Ieee.fgt (Ieee.Zoom (Ieee.set_Zoom Ieee.PInf
                                        Ieee.Camera_default))
                          (Ieee.Num 45) = true) by reflexivity.
  split; [split; [exact Hc |] |].
  { apply (proj1 (proj1 (scroll_is_clamp_from_range Camera_default 50
                           Ieee.Camera_default Ieee.NaN)) Hc). }
  split; [split; [exact Hlo |] |].
  { apply (proj1 (proj2 (proj1 (scroll_is_clamp_from_range
                                  (set_Zoom 0 Camera_default) 7
                                  Ieee.Camera_default Ieee.NaN))) Hlo). }
  split; [split; [exact Hhi |] |].
  { apply (proj2 (proj2 (proj1 (scroll_is_clamp_from_range
                                  (set_Zoom 50 Camera_default) 7
                                  Ieee.Camera_default Ieee.NaN))) Hhi). }
  split; [split; [exact Ieee_default_zoom_in_range |] |].
  { apply (proj1 (proj2 (scroll_is_clamp_from_range Camera_default 0
                           Ieee.Camera_default Ieee.PInf))
             Ieee_default_zoom_in_range). }
  split; [split; [exact Hlo' |] |].
  { apply (proj1 (proj2 (proj2 (scroll_is_clamp_from_range Camera_default 0
                                  (Ieee.set_Zoom Ieee.NInf Ieee.Camera_default)
                                  Ieee.NaN))) Hlo'). }
  split; [exact Hhi' |].
  apply (proj2 (proj2 (proj2 (scroll_is_clamp_from_range Camera_default 0
                                (Ieee.set_Zoom Ieee.PInf Ieee.Camera_default)
                                (Ieee.Num 7)))) Hhi').
Defined.

(** ** Mouse-look *)

(** The members a mouse-look call leaves alone, and the yaw it leaves. *)
Lemma Ieee_ProcessMouseMovement_frame (xoffset yoffset : Ieee.float)
    (constrainPitch : bool) (c : Ieee.Camera) :
  let c' := Ieee.ProcessMouseMovement xoffset yoffset constrainPitch c in
  Ieee.Position c' = Ieee.Position c /\ Ieee.WorldUp c' = Ieee.WorldUp c
  /\ Ieee.Yaw c'
     = Ieee.fadd (Ieee.Yaw c) (Ieee.fmul xoffset (Ieee.MouseSensitivity c))
  /\ Ieee.MovementSpeed c' = Ieee.MovementSpeed c
  /\ Ieee.MouseSensitivity c' = Ieee.MouseSensitivity c
  /\ Ieee.Zoom c' = Ieee.Zoom c.
Proof.
  unfold Ieee.ProcessMouseMovement. destruct constrainPitch; cbv zeta.
  - repeat match goal with
           | |- context [if ?b then _ else _] => destruct b; cbn
           end; repeat split.
  - repeat split.
Qed.

(** The pitch that a constrained mouse-look call leaves. *)
Lemma Ieee_ProcessMouseMovement_Pitch (xoffset yoffset : Ieee.float)
    (c : Ieee.Camera) :
  Ieee.Pitch (Ieee.ProcessMouseMovement xoffset yoffset true c)
  = Ieee.clamp
      (Ieee.fadd (Ieee.Pitch c) (Ieee.fmul yoffset (Ieee.MouseSensitivity c)))
      (-89) 89.
Proof.
  destruct c as [p f u r w yw pt ms sens zm].
  unfold Ieee.ProcessMouseMovement. cbv zeta.
  change (Ieee.Pitch (Ieee.updateCameraVectors ?s)) with (Ieee.Pitch s).
  cbn [Ieee.Pitch Ieee.set_Pitch Ieee.set_Yaw Ieee.MouseSensitivity].
  generalize (Ieee.fadd pt (Ieee.fmul yoffset sens)). intros a.
  destruct a as [a | | |]; real_cases.
Qed.

Lemma Ieee_clamp_in_interval (a : Ieee.float) (lo hi : R) :
  lo <= hi -> a <> Ieee.NaN -> Ieee.in_interval lo hi (Ieee.clamp a lo hi).
Proof.
  intros Hlh Ha. destruct a as [a | | |]; [| real_cases | real_cases | tauto].
  real_cases.
Qed.

Lemma Ieee_numbers_accumulate (p y s : Ieee.float) :
  Ieee.is_number p -> Ieee.is_number y -> Ieee.is_number s ->
  Ieee.fadd p (Ieee.fmul y s) <> Ieee.NaN.
Proof.
  destruct p, y, s; cbn [Ieee.is_number]; try tauto.
  intros _ _ _. discriminate.
Qed.

Lemma Ieee_in_interval_number (lo hi : R) (a : Ieee.float) :
  Ieee.in_interval lo hi a -> Ieee.is_number a.
Proof. destruct a; cbn; tauto. Qed.

(** C3, as stated, fails: a constrained mouse-look call whose vertical
    offset is NaN leaves the pitch NaN, which is not in [-89, 89]: NaN
    passes both comparisons of the clamp. *)
Lemma constrained_look_by_NaN_leaves_NaN :
  Ieee.Pitch (Ieee.ProcessMouseMovement (Ieee.Num 0) Ieee.NaN true
                Ieee.Camera_default) = Ieee.NaN
  /\ ~ Ieee.pitch_in_range
         (Ieee.ProcessMouseMovement (Ieee.Num 0) Ieee.NaN true
            Ieee.Camera_default).
Proof.
  assert (H : Ieee.Pitch (Ieee.ProcessMouseMovement (Ieee.Num 0) Ieee.NaN true
                            Ieee.Camera_default) = Ieee.NaN).
  { rewrite Ieee_ProcessMouseMovement_Pitch. reflexivity. }
  split; [exact H |].
  unfold Ieee.pitch_in_range. rewrite H. cbn [Ieee.in_interval]. tauto.
Qed.

(** C3, amended.  After [ProcessMouseMovement] with the pitch constraint
    enabled, [Pitch] is the accumulated pitch
    [Pitch + yoffset * MouseSensitivity] clamped to [-89, 89], the clamp
    coming after the accumulation; it lies in [-89, 89] whenever the
    accumulated pitch is not NaN, infinite values included, and is NaN
    otherwise.  Hence from an object whose [Pitch] and [MouseSensitivity]
    are numbers, the pitch lies in [-89, 89] after each call of any sequence
    of constrained mouse-look calls whose vertical offsets are numbers. *)
Theorem constrained_look_pitch (c : Ieee.Camera) :
  (forall xoffset yoffset : Ieee.float,
      let accumulated :=
        Ieee.fadd (Ieee.Pitch c)
                  (Ieee.fmul yoffset (Ieee.MouseSensitivity c)) in
      let c' := Ieee.ProcessMouseMovement xoffset yoffset true c in
      Ieee.Pitch c' = Ieee.clamp accumulated (-89) 89
      /\ (accumulated <> Ieee.NaN -> Ieee.pitch_in_range c')
      /\ (accumulated = Ieee.NaN -> Ieee.Pitch c' = Ieee.NaN))
  /\ (forall offsets : list (Ieee.float * Ieee.float),
        Ieee.is_number (Ieee.Pitch c) ->
        Ieee.is_number (Ieee.MouseSensitivity c) ->
        Forall (fun o => Ieee.is_number (snd o)) offsets ->
        Forall Ieee.pitch_in_range
               (Ieee.states_after Ieee.constrained_look offsets c)).
Proof.
  split.
  - intros xoffset yoffset. cbv zeta.
    rewrite Ieee_ProcessMouseMovement_Pitch.
    split; [reflexivity |]. split.
    + intros Ha. unfold Ieee.pitch_in_range.
      rewrite Ieee_ProcessMouseMovement_Pitch.
      apply Ieee_clamp_in_interval; [lra | exact Ha].
    + intros ->. reflexivity.
  - intros offsets. revert c.
    induction offsets as [| o rest IH]; intros c Hp Hs Hall; cbn.
    + constructor.
    + inversion Hall as [| ? ? Ho Hrest]; subst.
      assert (Hc' : Ieee.pitch_in_range (Ieee.constrained_look o c)).
      { unfold Ieee.pitch_in_range, Ieee.constrained_look.
        rewrite Ieee_ProcessMouseMovement_Pitch.
        apply Ieee_clamp_in_interval; [lra |].
        apply Ieee_numbers_accumulate; assumption. }
      constructor; [exact Hc' |].
      apply IH; [| | exact Hrest].
      * apply (@Ieee_in_interval_number (-89) 89). exact Hc'.
      * unfold Ieee.constrained_look.
        destruct (Ieee_ProcessMouseMovement_frame (fst o) (snd o) true c)
          as (_ & _ & _ & _ & -> & _).
        exact Hs.
Qed.

Lemma constrained_look_pitch_witness :
  Ieee.fadd (Ieee.Pitch Ieee.Camera_default)
            (Ieee.fmul Ieee.PInf (Ieee.MouseSensitivity Ieee.Camera_default))
  <> Ieee.NaN
  /\ Ieee.pitch_in_range
       (Ieee.ProcessMouseMovement Ieee.NaN Ieee.PInf true Ieee.Camera_default)
  /\ Forall Ieee.pitch_in_range
       (Ieee.states_after Ieee.constrained_look
          [(Ieee.Num 3, Ieee.Num 2000); (Ieee.NaN, Ieee.Num (-5000))]
          Ieee.Camera_default).
Proof.
  assert (Ha : Ieee.fadd (Ieee.Pitch Ieee.Camera_default)
                 (Ieee.fmul Ieee.PInf
                    (Ieee.MouseSensitivity Ieee.Camera_default))
               <> Ieee.NaN).
  { cbn [Ieee.Pitch Ieee.MouseSensitivity Ieee.Camera_default Ieee.Camera_new
         Ieee.updateCameraVectors Ieee.set_Up Ieee.set_Right Ieee.set_Front
         Ieee.set_Pitch Ieee.set_Yaw Ieee.set_WorldUp Ieee.set_Position
         Ieee.Camera_initialised Ieee.fmul].
    unfold Ieee.signed_inf, SENSITIVITY.
    replace (0 <? 0.1) with true by (symmetry; apply Rltb_true; lra).
    discriminate. }
  destruct (constrained_look_pitch Ieee.Camera_default) as (Hone & Hall).
  split; [exact Ha |]. split.
  - apply (proj1 (proj2 (Hone Ieee.NaN Ieee.PInf)) Ha).
  - apply Hall; cbn; try tauto. repeat constructor.
Defined.

(** ** What the operations leave alone, over the floats *)

Lemma Ieee_perform_frame (k : Ieee.Call) (c : Ieee.Camera) :
  Ieee.WorldUp (Ieee.perform k c) = Ieee.WorldUp c
  /\ Ieee.MovementSpeed (Ieee.perform k c) = Ieee.MovementSpeed c
  /\ Ieee.MouseSensitivity (Ieee.perform k c) = Ieee.MouseSensitivity c
  /\ match k with
     | Ieee.CallMouseScroll _ => True
     | _ => Ieee.Zoom (Ieee.perform k c) = Ieee.Zoom c
     end.
Proof.
  destruct k; cbn [Ieee.perform].
  - destruct direction; repeat split.
  - destruct (Ieee_ProcessMouseMovement_frame xoffset yoffset constrainPitch c)
      as (_ & Hw & _ & Hs & Hm & Hz).
    repeat split; assumption.
  - repeat split.
  - repeat split.
  - rewrite Ieee_ProcessMouseScroll_frame. repeat split.
Qed.

Lemma Ieee_run_calls_snoc (calls : list Ieee.Call) (k : Ieee.Call)
    (c : Ieee.Camera) :
  Ieee.run_calls (calls ++ [k]) c = Ieee.perform k (Ieee.run_calls calls c).
Proof. unfold Ieee.run_calls. rewrite fold_left_app. reflexivity. Qed.

(** The members that only the client can change, and the zoom, along a
    sequence of calls none of whose scroll deltas is NaN. *)
Lemma Ieee_run_calls_invariant (calls : list Ieee.Call) (c : Ieee.Camera) :
  Forall Ieee.scroll_delta_not_NaN calls ->
  Ieee.zoom_in_range c ->
  Ieee.WorldUp (Ieee.run_calls calls c) = Ieee.WorldUp c
  /\ Ieee.MovementSpeed (Ieee.run_calls calls c) = Ieee.MovementSpeed c
  /\ Ieee.MouseSensitivity (Ieee.run_calls calls c) = Ieee.MouseSensitivity c
  /\ Ieee.zoom_in_range (Ieee.run_calls calls c).
Proof.
  induction calls as [| k calls IH] using rev_ind; intros Hall Hc.
  - repeat split. exact Hc.
  - apply Forall_app in Hall. destruct Hall as (Hcalls & Hk).
    inversion Hk as [| ? ? Hk' _]; subst.
    destruct (IH Hcalls Hc) as (Hw & Hs & Hm & Hz).
    rewrite Ieee_run_calls_snoc.
    destruct (Ieee_perform_frame k (Ieee.run_calls calls c))
      as (Ew & Es & Em & Ez).
    rewrite Ew, Es, Em.
    split; [exact Hw |]. split; [exact Hs |]. split; [exact Hm |].
    destruct k; try (unfold Ieee.zoom_in_range in *; rewrite Ez; exact Hz).
    cbn [Ieee.perform]. cbn [Ieee.scroll_delta_not_NaN] in Hk'.
    apply Ieee_scroll_in_range; [| tauto].
    unfold Ieee.zoom_in_range in Hz.
    destruct (Ieee.Zoom (Ieee.run_calls calls c)); cbn in Hz; try tauto.
    discriminate.
Qed.

Lemma Ieee_new_zoom_in_range (position up : Ieee.vec3) (yaw pitch : Ieee.float) :
  Ieee.zoom_in_range (Ieee.Camera_new position up yaw pitch).
Proof.
  unfold Ieee.zoom_in_range.
  change (Ieee.Zoom (Ieee.Camera_new position up yaw pitch))
    with (Ieee.Num ZOOM).
  cbn [Ieee.in_interval]. unfold ZOOM. lra.
Qed.

(** X24.  A camera that is constructed, with any arguments, and then driven
    through the operations only, by calls with any arguments except that no
    scroll delta is NaN, keeps the world up vector it was constructed with,
    the default speed 2.5 and sensitivity 0.1, and a zoom in [1, 45]. *)
Theorem driven_camera_invariant (calls : list Ieee.Call)
    (position up : Ieee.vec3) (yaw pitch : Ieee.float) :
  Forall Ieee.scroll_delta_not_NaN calls ->
  let c := Ieee.run_calls calls (Ieee.Camera_new position up yaw pitch) in
  Ieee.WorldUp c = up /\ Ieee.MovementSpeed c = Ieee.Num SPEED
  /\ Ieee.MouseSensitivity c = Ieee.Num SENSITIVITY
  /\ Ieee.zoom_in_range c.
Proof.
  intros Hall. cbv zeta.
  destruct (@Ieee_run_calls_invariant calls
              (Ieee.Camera_new position up yaw pitch) Hall
              (Ieee_new_zoom_in_range position up yaw pitch))
    as (Hw & Hs & Hm & Hz).
  rewrite Hw, Hs, Hm. repeat split. exact Hz.
Qed.

Lemma driven_camera_invariant_witness :
  let calls :=
    [Ieee.CallMouseScroll (Ieee.Num 50);
     Ieee.CallMouseMovement Ieee.NaN Ieee.PInf true;
     Ieee.CallKeyboard FORWARD Ieee.NaN;
     Ieee.CallMouseScroll Ieee.NInf] in
  Forall Ieee.scroll_delta_not_NaN calls
  /\ Ieee.zoom_in_range
       (Ieee.run_calls calls
          (Ieee.Camera_new Ieee.zero Ieee.zero Ieee.NaN Ieee.NaN)).
Proof.
  cbv zeta.
  assert (Hall : Forall Ieee.scroll_delta_not_NaN
                   [Ieee.CallMouseScroll (Ieee.Num 50);
                    Ieee.CallMouseMovement Ieee.NaN Ieee.PInf true;
                    Ieee.CallKeyboard FORWARD Ieee.NaN;
                    Ieee.CallMouseScroll Ieee.NInf]).
  { repeat constructor; discriminate. }
  split; [exact Hall |].
  apply (@driven_camera_invariant _ Ieee.zero Ieee.zero Ieee.NaN Ieee.NaN
           Hall).
Defined.

(** X25.  For a camera that is constructed and then driven through the
    operations only, by calls none of whose scroll deltas is NaN, the guard
    of the decrement holds at every scroll call: the call leaves the zoom
    decremented by the delta and clamped to [1, 45], which lies in [1, 45]
    when the delta is not NaN, and is NaN when it is. *)
Theorem driven_camera_scroll_is_clamp (calls : list Ieee.Call)
    (position up : Ieee.vec3) (yaw pitch yoffset : Ieee.float) :
  Forall Ieee.scroll_delta_not_NaN calls ->
  let c := Ieee.run_calls calls (Ieee.Camera_new position up yaw pitch) in
  Ieee.Zoom (Ieee.ProcessMouseScroll yoffset c)
  = Ieee.clamp (Ieee.fsub (Ieee.Zoom c) yoffset) 1 45
  /\ (yoffset <> Ieee.NaN ->
      Ieee.zoom_in_range (Ieee.ProcessMouseScroll yoffset c))
  /\ (yoffset = Ieee.NaN ->
      Ieee.Zoom (Ieee.ProcessMouseScroll yoffset c) = Ieee.NaN).
Proof.
  intros Hall. cbv zeta.
  destruct (@Ieee_run_calls_invariant calls
              (Ieee.Camera_new position up yaw pitch) Hall
              (Ieee_new_zoom_in_range position up yaw pitch))
    as (_ & _ & _ & Hz).
  set (c := Ieee.run_calls calls (Ieee.Camera_new position up yaw pitch)) in *.
  assert (Hnn : Ieee.Zoom c <> Ieee.NaN).
  { unfold Ieee.zoom_in_range in Hz. destruct (Ieee.Zoom c); cbn in Hz;
      try tauto. discriminate. }
  assert (Heq : Ieee.Zoom (Ieee.ProcessMouseScroll yoffset c)
                = Ieee.clamp (Ieee.fsub (Ieee.Zoom c) yoffset) 1 45).
  { rewrite Ieee_ProcessMouseScroll_Zoom. unfold Ieee.zoom_in_range in Hz.
    destruct (Ieee.Zoom c) as [z | | |]; cbn [Ieee.in_interval] in Hz;
      try tauto.
    unfold Ieee.fge. cbn [Ieee.fle].
    replace (1 <=? z) with true by (symmetry; apply Rleb_true; lra).
    replace (z <=? 45) with true by (symmetry; apply Rleb_true; lra).
    reflexivity. }
  split; [exact Heq |]. split.
  - intros Hy. apply Ieee_scroll_in_range; [exact Hnn | tauto].
  - intros ->. rewrite Heq.
    destruct (Ieee.Zoom c); reflexivity.
Qed.

Lemma driven_camera_scroll_is_clamp_witness :
  Forall Ieee.scroll_delta_not_NaN [Ieee.CallMouseScroll (Ieee.Num 50)]
  /\ Ieee.zoom_in_range
       (Ieee.ProcessMouseScroll Ieee.NInf
          (Ieee.run_calls [Ieee.CallMouseScroll (Ieee.Num 50)]
             Ieee.Camera_default)).
Proof.
  assert (Hall : Forall Ieee.scroll_delta_not_NaN
                   [Ieee.CallMouseScroll (Ieee.Num 50)])
    by (repeat constructor; discriminate).
  split; [exact Hall |].
  apply (proj1 (proj2 (@driven_camera_scroll_is_clamp _ Ieee.zero
                         (Ieee.mk_vec3 (Ieee.Num 0) (Ieee.Num 1) (Ieee.Num 0))
                         (Ieee.Num YAW) (Ieee.Num PITCH) Ieee.NInf Hall))).
  discriminate.
Defined.

(** ** The basis over the floats, when the angles are numbers *)

Lemma dot_one_nonzero (v : vec3) : glm.dot v v = 1 -> v <> glm.zero.
Proof.
  intros H ->. unfold glm.dot, glm.zero in H. cbn in H. lra.
Qed.

Lemma Ieee_normalize_numbers (v : vec3) :
  v <> glm.zero ->
  Ieee.normalize (inject_vec3 v) = inject_vec3 (glm.normalize v).
Proof.
  intros Hv. unfold Ieee.normalize.
  change (Ieee.dot (inject_vec3 v) (inject_vec3 v))
    with (Ieee.Num (glm.dot v v)).
  assert (Hpos : 0 < glm.dot v v).
  { destruct (dot_self_nonneg v) as [H | H]; [exact H |].
    exfalso. apply Hv, dot_self_zero. symmetry. exact H. }
  assert (Hs : 0 < sqrt (glm.dot v v)) by (apply sqrt_lt_R0; exact Hpos).
  cbn [Ieee.fsqrt].
  replace (glm.dot v v <? 0) with false by (symmetry; apply Rltb_false; lra).
  cbn [Ieee.fdiv].
  destruct (Req_dec_T (sqrt (glm.dot v v)) 0) as [H0 | _]; [lra |].
  reflexivity.
Qed.

(** An object over the floats whose basis is current and whose angles and
    world up vector are those of a regular object over the reals has the
    basis that [updateCameraVectors] computes over the reals. *)
Lemma Ieee_current_numbers (c' : Ieee.Camera) (cr : Camera) :
  Ieee.basis_current c' ->
  Ieee.Yaw c' = Ieee.Num (Yaw cr) -> Ieee.Pitch c' = Ieee.Num (Pitch cr) ->
  Ieee.WorldUp c' = inject_vec3 (WorldUp cr) -> regular cr ->
  Ieee.Front c' = inject_vec3 (Front (updateCameraVectors cr))
  /\ Ieee.Right c' = inject_vec3 (Right (updateCameraVectors cr))
  /\ Ieee.Up c' = inject_vec3 (Up (updateCameraVectors cr)).
Proof.
  intros (Hf & Hr & Hu) Hyaw Hpitch Hw Hreg.
  destruct (updateCameraVectors_orthonormal cr Hreg)
    as [Hfu Hru _ Hfr _ _].
  apply unit_length_dot in Hfu, Hru. unfold perpendicular in Hfr.
  assert (Ef : Ieee.Front c' = inject_vec3 (Front (updateCameraVectors cr))).
  { rewrite Hf, Hyaw, Hpitch.
    change (Ieee.front_of (Ieee.Num (Yaw cr)) (Ieee.Num (Pitch cr)))
      with (inject_vec3 (front_of (Yaw cr) (Pitch cr))).
    rewrite Ieee_normalize_numbers
      by (apply dot_one_nonzero, front_of_dot).
    reflexivity. }
  assert (Er : Ieee.Right c' = inject_vec3 (Right (updateCameraVectors cr))).
  { rewrite Hr, Ef, Hw.
    change (Ieee.cross (inject_vec3 ?a) (inject_vec3 ?b))
      with (inject_vec3 (glm.cross a b)).
    rewrite Ieee_normalize_numbers.
    - reflexivity.
    - rewrite updateCameraVectors_Front. exact Hreg. }
  split; [exact Ef |]. split; [exact Er |].
  rewrite Hu, Ef, Er.
  change (Ieee.cross (inject_vec3 ?a) (inject_vec3 ?b))
    with (inject_vec3 (glm.cross a b)).
  rewrite Ieee_normalize_numbers.
  - reflexivity.
  - apply dot_one_nonzero, cross_of_orthonormal_pair; try assumption.
    rewrite dot_comm. exact Hfr.
Qed.

Lemma Ieee_ProcessMouseMovement_current (xoffset yoffset : Ieee.float)
    (constrainPitch : bool) (c : Ieee.Camera) :
  Ieee.basis_current
    (Ieee.ProcessMouseMovement xoffset yoffset constrainPitch c).
Proof. repeat split. Qed.

Lemma Ieee_clamp_numbers (a lo hi : R) :
  Ieee.clamp (Ieee.Num a) lo hi = Ieee.Num (clamp a lo hi).
Proof. unfold clamp. real_cases. Qed.

(** X9.  When the yaw, the pitch and the sensitivity of the object and the
    two offsets are numbers (no NaN, no infinity) and the world up vector is
    vertical, (0, k, 0) with k not 0 as the default (0, 1, 0) is, a
    constrained mouse-look call leaves [Front], [Right] and [Up] that are
    numbers again and orthonormal, the front not parallel to the world up
    vector, whatever the other members were. *)
Theorem constrained_look_never_degenerate (c : Ieee.Camera)
    (xoffset yoffset yaw pitch sensitivity k : R) :
  Ieee.Yaw c = Ieee.Num yaw -> Ieee.Pitch c = Ieee.Num pitch ->
  Ieee.MouseSensitivity c = Ieee.Num sensitivity ->
  Ieee.WorldUp c = Ieee.mk_vec3 (Ieee.Num 0) (Ieee.Num k) (Ieee.Num 0) ->
  k <> 0 ->
  let c' := Ieee.ProcessMouseMovement (Ieee.Num xoffset) (Ieee.Num yoffset)
              true c in
  exists front right up : vec3,
    Ieee.Front c' = inject_vec3 front /\ Ieee.Right c' = inject_vec3 right
    /\ Ieee.Up c' = inject_vec3 up
    /\ orthonormal front right up
    /\ ~ parallel front (glm.mk_vec3 0 k 0).
Proof.
  intros Hyaw Hpitch Hsens Hw Hk. cbv zeta.
  set (c' := Ieee.ProcessMouseMovement (Ieee.Num xoffset) (Ieee.Num yoffset)
               true c).
  set (pitch' := clamp (pitch + yoffset * sensitivity) (-89) 89).
  set (cr := mkCamera glm.zero glm.zero glm.zero glm.zero (glm.mk_vec3 0 k 0)
                      (yaw + xoffset * sensitivity) pitch' 0 0 0).
  assert (Hp' : -89 <= pitch' <= 89) by (apply clamp_in_range; lra).
  assert (Hreg : regular cr) by (apply vertical_regular; assumption).
  destruct (Ieee_ProcessMouseMovement_frame (Ieee.Num xoffset)
              (Ieee.Num yoffset) true c) as (_ & Ew & Ey & _).
  fold c' in Ew, Ey.
  assert (Ep : Ieee.Pitch c' = Ieee.Num pitch').
  { unfold c'. rewrite Ieee_ProcessMouseMovement_Pitch, Hpitch, Hsens.
    apply Ieee_clamp_numbers. }
  rewrite Hyaw, Hsens in Ey. rewrite Hw in Ew.
  destruct (@Ieee_current_numbers c' cr
              (Ieee_ProcessMouseMovement_current _ _ _ _) Ey Ep Ew Hreg)
    as (Ef & Er & Eu).
  exists (Front (updateCameraVectors cr)), (Right (updateCameraVectors cr)),
    (Up (updateCameraVectors cr)).
  split; [exact Ef |]. split; [exact Er |]. split; [exact Eu |].
  split.
  - apply updateCameraVectors_orthonormal. exact Hreg.
  - rewrite updateCameraVectors_Front. exact Hreg.
Qed.

Lemma constrained_look_never_degenerate_witness :
  exists front right up : vec3,
    Ieee.Front (Ieee.ProcessMouseMovement (Ieee.Num 0) (Ieee.Num 100000) true
                  Ieee.Camera_default) = inject_vec3 front
    /\ Ieee.Right (Ieee.ProcessMouseMovement (Ieee.Num 0) (Ieee.Num 100000)
                     true Ieee.Camera_default) = inject_vec3 right
    /\ Ieee.Up (Ieee.ProcessMouseMovement (Ieee.Num 0) (Ieee.Num 100000) true
                  Ieee.Camera_default) = inject_vec3 up
    /\ orthonormal front right up
    /\ ~ parallel front (glm.mk_vec3 0 1 0).
Proof.
  apply (@constrained_look_never_degenerate Ieee.Camera_default 0 100000
           YAW PITCH SENSITIVITY 1); try reflexivity.
  lra.
Defined.

(** ** The two embeddings agree on numbers *)

(** On an object all of whose members are numbers and for a delta that is a
    number, the scroll call over the floats is the scroll call over the
    reals. *)
Lemma Ieee_ProcessMouseScroll_numbers (yoffset : R) (c : Camera) :
  Ieee.ProcessMouseScroll (Ieee.Num yoffset) (inject c)
  = inject (ProcessMouseScroll yoffset c).
Proof.
  rewrite Ieee_ProcessMouseScroll_frame, (ProcessMouseScroll_frame yoffset c).
  rewrite Ieee_ProcessMouseScroll_Zoom, ProcessMouseScroll_Zoom.
  change (Ieee.Zoom (inject c)) with (Ieee.Num (Zoom c)).
  change (inject (set_Zoom ?z c)) with (Ieee.set_Zoom (Ieee.Num z) (inject c)).
  f_equal. unfold clamp. real_cases.
Qed.
